(** * pyvision3: the annotated Image (src/pyvision/image.py)

    A shallow embedding of the [Image] class and the properties of its
    compositing and annotation methods.

    The base raster and the annotation layer are numpy arrays living in a
    store: Python objects are references, and the constructor keeps the array
    it is given.  The drawing primitives of OpenCV are an interface ([Cv2]);
    the calls made to it are logged.  Every method is a computation in a
    state-and-exception monad.

    Rasters are 8-bit (dtype uint8), as [cv2.imread] and [cv2.imdecode] give
    them by default and as the annotation layer is; arrays of another depth
    are not modelled.  The opacity [alpha] is a Python float, and the blend is
    computed in binary64 arithmetic with rounding to nearest even, as numpy
    computes it.

    The first part holds the definitions, the second part the properties. *)

From Stdlib Require Import ZArith QArith Qround Qabs Lia.
From Stdlib Require Import Floats.SpecFloat.
From stdpp Require Import gmap strings list fin_maps pretty.

Local Open Scope Z_scope.

(** ** Numbers *)

(** Python's [int(x)] on a float, numpy's [dtype='int'] conversion and the
    C cast of a float to an integer all truncate toward zero. *)
Definition int (x : Q) : Z := Z.quot (Qnum x) (Z.pos (Qden x)).

(** ** Floats

    A Python float and the elements of a numpy float64 array are IEEE 754
    binary64 numbers: 53 bits of precision, infinities at exponent 1024. *)
Definition float64 : Type := spec_float.

Definition f64_add : float64 → float64 → float64 := SFadd 53 1024.
Definition f64_sub : float64 → float64 → float64 := SFsub 53 1024.
Definition f64_mul : float64 → float64 → float64 := SFmul 53 1024.
Definition f64_div : float64 → float64 → float64 := SFdiv 53 1024.

(** The conversion of an integer, exact below 2^53: [float(z)], and the
    conversion of a [uint8] element in an operation with a float. *)
Definition f64_of_Z (z : Z) : float64 := binary_normalize 53 1024 z 0 false.

(** The float nearest to [n / d], which is the value of the decimal literal
    for it: [f64_lit 3 10] is Python's [0.3]. *)
Definition f64_lit (n d : Z) : float64 := f64_div (f64_of_Z n) (f64_of_Z d).

(** The number a finite float stands for. *)
Definition f64_value (x : float64) : Q :=
  match x with
  | S754_finite s m e =>
      let n := if s then Z.neg m else Z.pos m in
      match e with
      | Z.neg p => n # (2 ^ p)
      | _ => inject_Z (n * 2 ^ e)
      end
  | _ => 0%Q
  end.

(** The integer part of a float, toward zero; none for NaN and the
    infinities. *)
Definition f64_trunc (x : float64) : option Z :=
  match x with
  | S754_zero _ => Some 0
  | S754_finite s m e =>
      let v := match e with
               | Z.neg p => Z.pos m / 2 ^ Z.pos p
               | _ => Z.pos m * 2 ^ e
               end in
      Some (if s then - v else v)
  | _ => None
  end.

(** Storing a float into a [uint8] array is a C cast: the integer part when
    it is in 0..255.  For any other float (NaN and the infinities among them)
    the C standard leaves the result undefined, and numpy gives what the
    platform gives: this is a parameter. *)
Class Numpy := {
  cast_undefined : float64 → Z;
  cast_undefined_uint8 : ∀ x, 0 ≤ cast_undefined x < 256 }.

Definition astype_uint8 {np : Numpy} (x : float64) : Z :=
  match f64_trunc x with
  | Some v => if decide (0 ≤ v < 256) then v else cast_undefined x
  | None => cast_undefined x
  end.

(** A platform on which every undefined cast gives 0. *)
Definition zero_cast : Numpy :=
  {| cast_undefined _ := 0; cast_undefined_uint8 _ := conj (Z.le_refl 0) eq_refl |}.

(** The values of a [uint8] element. *)
Definition uint8s : list Z := Z.of_nat <$> seq 0 256.

(** [f64_trunc x] is [v]. *)
Definition truncs_to (x : float64) (v : Z) : bool :=
  match f64_trunc x with Some v' => v' =? v | None => false end.

Definition is_pos_zero (x : float64) : bool :=
  match x with S754_zero false => true | _ => false end.

(** A check of [P (F o) (G b) o b] for all [uint8] values [o] and [b], with
    [F o] and [G b] computed once each. *)
Definition check2 (F G : Z → float64) (P : float64 → float64 → Z → Z → bool) : bool :=
  let t2 := (λ b, (b, G b)) <$> uint8s in
  forallb (λ o, let x := F o in forallb (λ y : Z * float64, P x y.2 o y.1) t2) uint8s.

(** ** numpy arrays *)

Inductive shape :=
| Shape2 (rows cols : nat)
| Shape3 (rows cols chans : nat).

Definition idx : Type := nat * nat * nat.
Definition pixels : Type := nat → nat → nat → Z.

(** An array is its shape and its elements; a 2-D array is read at channel 0.
    The elements outside the shape are never looked at. *)
Record ndarray := NdArray { arr_shape : shape; item : pixels }.
Arguments item _ (_ _ _)%_nat.

Definition in_bounds (sh : shape) (ix : idx) : bool :=
  let '(i, j, k) := ix in
  match sh with
  | Shape2 h w => bool_decide (i < h)%nat && bool_decide (j < w)%nat && bool_decide (k = 0)%nat
  | Shape3 h w c => bool_decide (i < h)%nat && bool_decide (j < w)%nat && bool_decide (k < c)%nat
  end.

(** [a.shape[0:2]] *)
Definition shape_0_2 (sh : shape) : nat * nat :=
  match sh with Shape2 h w => (h, w) | Shape3 h w _ => (h, w) end.

(** [np.zeros((h, w, c), dtype='uint8')] *)
Definition np_zeros (h w c : nat) : ndarray := NdArray (Shape3 h w c) (λ _ _ _, 0).

(** [a.copy()] *)
Definition copy (a : ndarray) : ndarray := NdArray (arr_shape a) (item a).

(** All the indices of an h x w x c array, in row-major order. *)
Definition indices (h w c : nat) : list idx :=
  i ← seq 0 h; j ← seq 0 w; k ← seq 0 c; [(i, j, k)].

(** [a.nonzero()] of a 3-D array: the indices of its non-zero elements
    (numpy returns them as three parallel index arrays). *)
Definition nonzero3 (h w c : nat) (px : pixels) : list idx :=
  filter (λ ix : idx, px ix.1.1 ix.1.2 ix.2 ≠ 0) (indices h w c).

(** [a[mask]]: [None] stands for numpy's IndexError. *)
Definition getitem (a : ndarray) (ix : idx) : option Z :=
  if in_bounds (arr_shape a) ix then Some (item a ix.1.1 ix.1.2 ix.2) else None.

Definition getitems (a : ndarray) (mask : list idx) : option (list Z) :=
  mapM (getitem a) mask.

(** [a[ix] = v] *)
Definition setitem (a : ndarray) (ix : idx) (v : Z) : option ndarray :=
  if in_bounds (arr_shape a) ix
  then Some (NdArray (arr_shape a)
               (λ i j k, if decide ((i, j, k) = ix) then v else item a i j k))
  else None.

(** [a[mask] = vals], one element after the other. *)
Fixpoint setitems (a : ndarray) (mask : list idx) (vals : list Z) : option ndarray :=
  match mask, vals with
  | ix :: mask', v :: vals' => a' ← setitem a ix v; setitems a' mask' vals'
  | _, _ => Some a
  end.

(** [cv2.cvtColor(a, cv2.COLOR_GRAY2BGR)]: the gray value in each of the
    three channels; OpenCV rejects an input that has not one channel, and an
    input without pixels. *)
Definition cvtColor_GRAY2BGR (a : ndarray) : option ndarray :=
  match arr_shape a with
  | Shape2 h w | Shape3 h w 1 =>
      if decide (h = 0 ∨ w = 0)%nat then None
      else Some (NdArray (Shape3 h w 3) (λ i j _, item a i j 0%nat))
  | Shape3 _ _ _ => None
  end.

(** [alpha * o + (1 - alpha) * b] for [uint8] elements [o] and [b]: each
    element is converted to float64, and each of the four operations rounds. *)
Definition blend (alpha : float64) (o b : Z) : float64 :=
  f64_add (f64_mul alpha (f64_of_Z o))
          (f64_mul (f64_sub (f64_of_Z 1) alpha) (f64_of_Z b)).

(** The formula [alpha * o + (1 - alpha) * b] in exact arithmetic. *)
Definition blend_exact (alpha : Q) (o b : Z) : Q :=
  (alpha * inject_Z o + (1 - alpha) * inject_Z b)%Q.

(** ** The store and the monad of the methods *)

Definition loc : Type := positive.

(** Colours are triples of integers, points are pairs. *)
Definition color_t : Type := Z * Z * Z.
Definition point_t : Type := Z * Z.

(** The optional [*args, **kwargs] that the methods hand on to OpenCV. *)
Record kwargs := Kwargs {
  thickness : option Z;
  lineType : option Z;
  shift : option Z }.

Definition no_kwargs : kwargs := Kwargs None None None.

(** The drawing primitives of OpenCV that the class calls, with the
    arguments of the call; the colour is what OpenCV receives. *)
Inductive draw_call :=
| cv2_line (pt1 pt2 : point_t) (c : color_t) (kw : kwargs)
| cv2_circle (ctr : point_t) (radius : Z) (c : color_t) (kw : kwargs)
| cv2_rectangle (pt1 pt2 : point_t) (c : color_t) (kw : kwargs)
| cv2_fillPoly (pts : list (list point_t)) (c : color_t)
| cv2_putText (txt : string) (org : point_t) (fontFace : Z) (fontScale : Q)
              (c : color_t) (kw : kwargs).

Definition call_color (d : draw_call) : color_t :=
  match d with
  | cv2_line _ _ c _ | cv2_circle _ _ c _ | cv2_rectangle _ _ c _
  | cv2_fillPoly _ c | cv2_putText _ _ _ _ c _ => c
  end.

(** OpenCV itself is not part of the repository: it is an interface.
    A drawing primitive works in place on a buffer of a fixed shape: it is
    given the elements and returns the new elements, or fails (cv2.error). *)
Class Cv2 := {
  cv2_draw : draw_call → shape → pixels → option pixels;
  cv2_getTextSize : string → Z → Q → Z → (Z * Z) * Z;
  cv2_imread : string → option Z → option ndarray;
  cv2_imdecode : list Z → option ndarray }.

Inductive exn :=
| IndexError
| AttributeError
| cv2_error
| unsupported_operand   (* an overlay that is not 3-D: not what __init__ builds *)
| dangling.             (* a location outside the store: no Python reference is *)

(** The store of arrays and the log of the drawing calls made so far, each
    with the buffer it drew on.  An exception leaves the state as it is at
    the point where it is raised: what was drawn before stays drawn. *)
Record state := State {
  heap : gmap loc ndarray;
  calls : list (loc * draw_call) }.

Inductive result (A : Type) :=
| Ok (a : A) (s : state)
| Raise (e : exn) (s : state).
Arguments Ok {A} a s.
Arguments Raise {A} e s.

Definition state_of {A} (r : result A) : state :=
  match r with Ok _ s | Raise _ s => s end.

Definition M (A : Type) : Type := state → result A.

Definition ret {A} (a : A) : M A := λ s, Ok a s.
Definition raise {A} (e : exn) : M A := λ s, Raise e s.
Definition bind {A B} (m : M A) (f : A → M B) : M B :=
  λ s, match m s with Ok a s' => f a s' | Raise e s' => Raise e s' end.

Declare Scope py_scope.
Delimit Scope py_scope with py.
Notation "x <~ m ;; k" := (bind m (λ x, k))
  (at level 100, m at next level, right associativity) : py_scope.
Notation "m ;;; k" := (bind m (λ _, k))
  (at level 100, right associativity) : py_scope.
Local Open Scope py_scope.

(** [for x in l: body(x)] *)
Fixpoint for_ {A} (l : list A) (body : A → M unit) : M unit :=
  match l with
  | [] => ret tt
  | x :: l' => body x ;;; for_ l' body
  end.

(** A new array object. *)
Definition alloc (a : ndarray) : M loc := λ s,
  let l := fresh (dom (heap s)) in
  Ok l (State (<[l := a]> (heap s)) (calls s)).

Definition deref (l : loc) : M ndarray := λ s,
  match heap s !! l with Some a => Ok a s | None => Raise dangling s end.

Definition store (l : loc) (a : ndarray) : M unit := λ s,
  Ok tt (State (<[l := a]> (heap s)) (calls s)).

(** Lift a numpy or OpenCV operation that can fail. *)
Definition lift {A} (e : exn) (o : option A) : M A :=
  match o with Some a => ret a | None => raise e end.

(** [l[i]] on a Python list, for a non-negative index. *)
Definition index {A} (l : list A) (i : nat) : M A := lift IndexError (l !! i).

(** The log entry of a drawing call. *)
Definition called (buf : loc) (d : draw_call) : M unit := λ s,
  Ok tt (State (heap s) (calls s ++ [(buf, d)])).

Section Image.
Context `{Cv2} {np : Numpy}.

(** One call of an OpenCV drawing primitive on the buffer at [buf]: the call
    is logged, and the buffer is changed in place unless OpenCV rejects the
    call. *)
Definition draw (buf : loc) (d : draw_call) : M unit :=
  a <~ deref buf ;;
  called buf d ;;;
  px <~ lift cv2_error (cv2_draw d (arr_shape a) (item a)) ;;
  store buf (NdArray (arr_shape a) px).

(** ** class Image *)

Record Image := {
  desc : string;
  data : loc;
  height : nat;
  width : nat;
  nchannels : nat;
  annotation_data : loc }.

(** What the constructor is given: an array (a reference to it), a path, or
    a file object (its bytes).  [cv2.imread] returns None for a file it
    cannot read, and [cv2.imdecode] for bytes it cannot decode, but it raises
    for an empty buffer; the None is found out at [self.data.shape]. *)
Inductive source :=
| from_ndarray (a : loc)
| from_path (path : string)
| from_file (buf : list Z).

Definition __init__ (src : source) (args : option Z) (desc : string) : M Image :=
  data <~ match src with
          | from_ndarray a => ret a
          | from_path p =>
              a <~ lift AttributeError (cv2_imread p args) ;; alloc a
          | from_file buf =>
              a <~ (if decide (buf = []) then raise cv2_error
                    else lift AttributeError (cv2_imdecode buf)) ;;
              alloc a
          end ;;
  a <~ deref data ;;
  let '(height, width) := shape_0_2 (arr_shape a) in
  let nchannels := match arr_shape a with Shape3 _ _ c => c | Shape2 _ _ => 1%nat end in
  annotation_data <~ alloc (np_zeros height width 3) ;;
  ret {| desc := desc; data := data; height := height; width := width;
         nchannels := nchannels; annotation_data := annotation_data |}.

(** [self.annotation_data.nonzero()] *)
Definition nonzero (a : ndarray) : M (list idx) :=
  match arr_shape a with
  | Shape3 h w c => ret (nonzero3 h w c (item a))
  | Shape2 _ _ => raise unsupported_operand
  end.

Definition as_annotated (self : Image) (alpha : float64) : M loc :=
  ann <~ deref (annotation_data self) ;;
  mask <~ nonzero ann ;;
  base <~ deref (data self) ;;
  tmp_img <~ (if decide (nchannels self = 1%nat)
              then g <~ lift cv2_error (cvtColor_GRAY2BGR base) ;; alloc g
              else alloc (copy base)) ;;
  o <~ lift IndexError (getitems ann mask) ;;
  tmp <~ deref tmp_img ;;
  b <~ lift IndexError (getitems tmp mask) ;;
  new <~ lift IndexError
           (setitems tmp mask (astype_uint8 <$> zip_with (blend alpha) o b)) ;;
  store tmp_img new ;;;
  ret tmp_img.

(** ** Annotations *)

Definition _fix_color_tuple (c : color_t) : color_t :=
  let '(r, g, b) := c in
  let r := if decide (r = 0) then 1 else r in
  let g := if decide (g = 0) then 1 else g in
  let b := if decide (b = 0) then 1 else b in
  (b, g, r).

Definition annotate_line (self : Image) (pt1 pt2 : point_t) (color : color_t)
    (kw : kwargs) : M unit :=
  let c := _fix_color_tuple color in
  draw (annotation_data self) (cv2_line pt1 pt2 c kw).

Definition annotate_circle (self : Image) (ctr : Q * Q) (radius : Z)
    (color : color_t) (kw : kwargs) : M unit :=
  let c := _fix_color_tuple color in
  let ctr := (int ctr.1, int ctr.2) in
  draw (annotation_data self) (cv2_circle ctr radius c kw).

Definition annotate_point (self : Image) (point : Q * Q) (color : color_t) : M unit :=
  annotate_circle self point 3 color (Kwargs (Some (-1)) None None).

Definition annotate_rect (self : Image) (pt1 pt2 : point_t) (color : color_t)
    (kw : kwargs) : M unit :=
  let c := _fix_color_tuple color in
  draw (annotation_data self) (cv2_rectangle pt1 pt2 c kw).

Definition annotate_text (self : Image) (txt : string) (point : point_t)
    (color : color_t) (bg_color : option color_t) (fontFace : Z) (fontScale : Q)
    (kw : kwargs) : M unit :=
  let c := _fix_color_tuple color in
  match bg_color with
  | Some bg =>
      let '((w, h), _) := cv2_getTextSize txt fontFace fontScale 1 in
      let point1 := (point.1 - 1, point.2 + 1) in
      let point2 := (point1.1 + w + 2, point1.2 - h - 2) in
      annotate_rect self point1 point2 bg (Kwargs (Some (-1)) None None)
  | None => ret tt
  end ;;;
  draw (annotation_data self) (cv2_putText txt point fontFace fontScale c kw).

(** The coordinates of a simple shape (a line string or a ring) are floats. *)
Definition coords : Type := list (Q * Q).

Definition _draw_segments (self : Image) (simple_shape : coords) (color : color_t)
    (kw : kwargs) : M unit :=
  let points := (λ xy : Q * Q, (int xy.1, int xy.2)) <$> simple_shape in
  for_ (seq 1 (length points - 1)) (λ i,
    pt1 <~ index points (i - 1) ;;
    pt2 <~ index points i ;;
    annotate_line self pt1 pt2 color kw).

(** The geometries of shapely. *)
#[local] Unset Elimination Schemes.
Inductive geometry :=
| Point (xy : Q * Q)
| LineString (cs : coords)
| LinearRing (cs : coords)
| Polygon (exterior : coords) (interiors : list coords)
| MultiPoint (pts : coords)
| MultiLineString (lines : list coords)
| MultiPolygon (polys : list (coords * list coords))
| GeometryCollection (geoms : list geometry).
#[local] Set Elimination Schemes.

(** [np.array(ring.coords, dtype='int')] *)
Definition np_array_int (cs : coords) : list point_t :=
  (λ xy : Q * Q, (int xy.1, int xy.2)) <$> cs.

(** The [if fill_color is not None] block of [annotate_shape]. *)
Definition fill_polygon (self : Image) (exterior : coords) (interiors : list coords)
    (fill_color : option color_t) : M unit :=
  match fill_color with
  | Some fc =>
      let c := _fix_color_tuple fc in
      let exterior := np_array_int exterior in
      let interiors := np_array_int <$> interiors in
      draw (annotation_data self) (cv2_fillPoly ([exterior] ++ interiors) c)
  | None => ret tt
  end.

Definition annotate_shape (self : Image) (shape : geometry) (color : color_t)
    (fill_color : option color_t) (kw : kwargs) : M unit :=
  match shape with
  | LinearRing cs | LineString cs => _draw_segments self cs color kw
  | MultiLineString lines =>
      for_ lines (λ line_string, _draw_segments self line_string color kw)
  | Polygon exterior interiors =>
      fill_polygon self exterior interiors fill_color ;;;
      _draw_segments self exterior color kw ;;;
      for_ interiors (λ interior_ring, _draw_segments self interior_ring color kw)
  | _ => ret tt
  end.

End Image.

(** ** Compositing *)

(** What [as_annotated] computes from the two arrays, without the store. *)
Definition composite {np : Numpy} (nch : nat) (alpha : float64) (base ann : ndarray)
    : option ndarray :=
  match arr_shape ann with
  | Shape2 _ _ => None
  | Shape3 h w c =>
      let mask := nonzero3 h w c (item ann) in
      tmp ← (if decide (nch = 1%nat) then cvtColor_GRAY2BGR base else Some (copy base));
      o ← getitems ann mask;
      b ← getitems tmp mask;
      setitems tmp mask (astype_uint8 <$> zip_with (blend alpha) o b)
  end.

(** The base raster as [as_annotated] blends it: a single-channel image is
    seen through its conversion to three equal channels. *)
Definition bgr (nch : nat) (base : ndarray) : pixels :=
  if decide (nch = 1%nat) then λ i j _, item base i j 0%nat else item base.

Definition out_channels (nch : nat) : nat :=
  if decide (nch = 1%nat) then 3%nat else nch.

(** The two layers of an image of height [h], width [w] and [nch] channels:
    the overlay is h x w x 3 and the base is h x w or h x w x nch. *)
Definition layers_ok (h w nch : nat) (base ann : ndarray) : Prop :=
  arr_shape ann = Shape3 h w 3 ∧
  (arr_shape base = Shape2 h w ∧ nch = 1%nat
   ∨ arr_shape base = Shape3 h w nch ∧ (nch = 1 ∨ 3 ≤ nch)%nat).

(** OpenCV can convert a single-channel image only if it has pixels. *)
Definition convertible (h w nch : nat) : Prop := nch = 1%nat → (0 < h ∧ 0 < w)%nat.

(** Every element of the array is an 8-bit value. *)
Definition uint8_array (a : ndarray) : Prop :=
  ∀ i j k, in_bounds (arr_shape a) (i, j, k) = true → 0 ≤ item a i j k < 256.

(** The image [self] in the state [s]: its two buffers are the arrays [base]
    and [ann], of the shapes the constructor gives them. *)
Record image_in (s : state) (self : Image) (base ann : ndarray) : Prop := {
  base_in : heap s !! data self = Some base;
  ann_in : heap s !! annotation_data self = Some ann;
  shapes_ok : layers_ok (height self) (width self) (nchannels self) base ann;
  base_uint8 : uint8_array base;
  ann_uint8 : uint8_array ann }.

(** ** Concrete rasters *)

(** An h x w x c array from its rows of pixels. *)
Definition of_rows (rows : list (list (list Z))) : ndarray :=
  NdArray (Shape3 (length rows) (length (default [] (head rows)))
             (length (default [] (head rows ≫= head))))
          (λ i j k, default 0 (row ← rows !! i; px ← row !! j; px !! k)).

(** An h x w array from its rows of gray values. *)
Definition of_gray_rows (rows : list (list Z)) : ndarray :=
  NdArray (Shape2 (length rows) (length (default [] (head rows))))
          (λ i j _, default 0 (row ← rows !! i; row !! j)).

(** A decision procedure for [uint8_array]. *)
Definition all_indices (sh : shape) : list idx :=
  match sh with
  | Shape2 h w => indices h w 1
  | Shape3 h w c => indices h w c
  end.

Definition uint8_arrayb (a : ndarray) : bool :=
  forallb (λ ix : idx, (0 <=? item a ix.1.1 ix.1.2 ix.2) && (item a ix.1.1 ix.1.2 ix.2 <? 256))
          (all_indices (arr_shape a)).

(** A state with a one-pixel colour image: the base pixel at location 1 and
    the overlay pixel at location 2. *)
Definition one_pixel (base ann : list Z) : state :=
  State (<[2%positive := of_rows [[ann]]]> (<[1%positive := of_rows [[base]]]> ∅)) [].

Definition img1 : Image :=
  {| desc := "Pyvision Image"; data := 1%positive; height := 1; width := 1;
     nchannels := 3; annotation_data := 2%positive |}.

(** ** Compositing rules to compare the code with *)

(** The compositing rule pixel by pixel: a pixel whose overlay is all zero
    keeps the base value, and a pixel whose overlay is not all zero has
    [alpha * overlay + (1 - alpha) * base] in each of its three channels. *)
Definition blends_whole_pixels (self : Image) (alpha : Q) (base ann out : ndarray) : Prop :=
  ∀ i j, (i < height self)%nat → (j < width self)%nat →
    ((∀ k, (k < 3)%nat → item ann i j k = 0) →
       ∀ k, (k < 3)%nat → item out i j k = bgr (nchannels self) base i j k) ∧
    ((∃ k, (k < 3)%nat ∧ item ann i j k ≠ 0) →
       ∀ k, (k < 3)%nat →
         (inject_Z (item out i j k)
          == blend_exact alpha (item ann i j k) (bgr (nchannels self) base i j k))%Q).

(** [z] is a nearest integer of [x], whatever the rule for ties. *)
Definition nearest (z : Z) (x : Q) : Prop := (Qabs (inject_Z z - x) <= 1 # 2)%Q.

(** A pixel that holds a drawn colour: no component is zero. *)
Definition drawn (ann : ndarray) (i j : nat) : Prop :=
  ∀ k, (k < 3)%nat → 1 ≤ item ann i j k.

(** Rounding at the drawn pixels. *)
Definition rounds_drawn_pixels (self : Image) (alpha : Q) (base ann out : ndarray) : Prop :=
  ∀ i j, (i < height self)%nat → (j < width self)%nat → drawn ann i j →
    ∀ k, (k < 3)%nat →
      nearest (item out i j k)
        (blend_exact alpha (item ann i j k) (bgr (nchannels self) base i j k)).

(** ** The public annotation methods *)

(** A call of a public annotation method. *)
Inductive annotation :=
| Annotate_shape (shape : geometry) (color : color_t) (fill_color : option color_t)
                 (kw : kwargs)
| Annotate_point (point : Q * Q) (color : color_t)
| Annotate_circle (ctr : Q * Q) (radius : Z) (color : color_t) (kw : kwargs)
| Annotate_line (pt1 pt2 : point_t) (color : color_t) (kw : kwargs)
| Annotate_rect (pt1 pt2 : point_t) (color : color_t) (kw : kwargs)
| Annotate_text (txt : string) (point : point_t) (color : color_t)
                (bg_color : option color_t) (fontFace : Z) (fontScale : Q) (kw : kwargs).

Definition annotate `{Cv2} (self : Image) (op : annotation) : M unit :=
  match op with
  | Annotate_shape shape color fill_color kw => annotate_shape self shape color fill_color kw
  | Annotate_point point color => annotate_point self point color
  | Annotate_circle ctr radius color kw => annotate_circle self ctr radius color kw
  | Annotate_line pt1 pt2 color kw => annotate_line self pt1 pt2 color kw
  | Annotate_rect pt1 pt2 color kw => annotate_rect self pt1 pt2 color kw
  | Annotate_text txt point color bg_color fontFace fontScale kw =>
      annotate_text self txt point color bg_color fontFace fontScale kw
  end.

(** The (R,G,B) colours the caller gives to the method. *)
Definition user_colors (op : annotation) : list color_t :=
  match op with
  | Annotate_shape _ color fill_color _ => color :: option_list fill_color
  | Annotate_point _ color | Annotate_circle _ _ color _
  | Annotate_line _ _ color _ | Annotate_rect _ _ color _ => [color]
  | Annotate_text _ _ color bg_color _ _ _ => color :: option_list bg_color
  end.

(** [m] takes every state to a state related to it by [R], whether it
    returns or raises. *)
Definition steps {A} (R : relation state) (m : M A) : Prop :=
  ∀ s, R s (state_of (m s)).

(** ** A small rasteriser

    An instance of the OpenCV interface on which the methods can be run on
    concrete images: thin lines, circles and rectangles, polygons filled by
    the even-odd rule with their outline, a mark at the origin of a text.
    Colours are saturated to 8 bits as OpenCV does. *)

Definition chan (c : color_t) (k : nat) : Z :=
  match k with 0%nat => c.1.1 | 1%nat => c.1.2 | _ => c.2 end.

Definition saturate (v : Z) : Z := Z.max 0 (Z.min 255 v).

Definition on_segment (p : point_t) (e : point_t * point_t) : bool :=
  let '((x1, y1), (x2, y2)) := e in
  let '(x, y) := p in
  ((x2 - x1) * (y - y1) =? (y2 - y1) * (x - x1))
  && (Z.min x1 x2 <=? x) && (x <=? Z.max x1 x2)
  && (Z.min y1 y2 <=? y) && (y <=? Z.max y1 y2).

(** The edge crosses the horizontal ray from [p] to the right. *)
Definition crosses (p : point_t) (e : point_t * point_t) : bool :=
  let '((x1, y1), (x2, y2)) := e in
  let '(x, y) := p in
  negb (Bool.eqb (y <? y1) (y <? y2))
  && (if y1 <? y2
      then (x - x1) * (y2 - y1) <? (x2 - x1) * (y - y1)
      else (x2 - x1) * (y - y1) <? (x - x1) * (y2 - y1)).

(** The edges of a ring, closed from its last point to its first. *)
Definition ring_edges (r : list point_t) : list (point_t * point_t) :=
  match r with
  | [] => []
  | p :: _ => zip r (tail r ++ [p])
  end.

Definition ring_boundary (r : list point_t) (p : point_t) : bool :=
  existsb (on_segment p) (ring_edges r).

Definition ring_interior (r : list point_t) (p : point_t) : bool :=
  Nat.odd (length (List.filter (crosses p) (ring_edges r))) && negb (ring_boundary r p).

(** How many of the rings have [p] strictly inside. *)
Definition rings_around (interior : list point_t → point_t → bool)
    (rings : list (list point_t)) (p : point_t) : nat :=
  length (List.filter (λ r, interior r p) rings).

(** The even-odd rule: a point is filled when it is inside an odd number of
    the rings, or on the outline of one of them. *)
Definition even_odd (interior boundary : list point_t → point_t → bool)
    (rings : list (list point_t)) (p : point_t) : bool :=
  Nat.odd (rings_around interior rings p) || existsb (λ r, boundary r p) rings.

Definition filled (kw : kwargs) : bool :=
  match thickness kw with Some t => t <? 0 | None => false end.

Definition covers (d : draw_call) (p : point_t) : bool :=
  match d with
  | cv2_line pt1 pt2 _ _ => on_segment p (pt1, pt2)
  | cv2_circle ctr radius _ kw =>
      let d2 := (p.1 - ctr.1) * (p.1 - ctr.1) + (p.2 - ctr.2) * (p.2 - ctr.2) in
      (d2 <=? radius * radius + radius)
      && (filled kw || (radius * radius - radius <? d2))
  | cv2_rectangle pt1 pt2 _ kw =>
      if filled kw
      then (Z.min pt1.1 pt2.1 <=? p.1) && (p.1 <=? Z.max pt1.1 pt2.1)
           && (Z.min pt1.2 pt2.2 <=? p.2) && (p.2 <=? Z.max pt1.2 pt2.2)
      else ring_boundary [pt1; (pt2.1, pt1.2); pt2; (pt1.1, pt2.2)] p
  | cv2_fillPoly pts _ => even_odd ring_interior ring_boundary pts p
  | cv2_putText _ org _ _ _ _ => bool_decide (p = org)
  end.

Definition raster_draw (d : draw_call) (sh : shape) (px : pixels) : option pixels :=
  Some (λ i j k, if covers d (Z.of_nat j, Z.of_nat i)
                 then saturate (chan (call_color d) k) else px i j k).

#[local] Instance raster_cv2 (files : string → option ndarray) : Cv2 := {|
  cv2_draw := raster_draw;
  cv2_getTextSize txt _ _ _ := ((8 * Z.of_nat (String.length txt), 10), 0);
  cv2_imread path _ := files path;
  cv2_imdecode buf := match buf with [] => None | _ => Some (of_gray_rows [buf]) end |}.


(** ** Colours and drawing calls *)

(** A zero component becomes 1. *)
Definition coerce_zero (v : Z) : Z := if decide (v = 0) then 1 else v.

Definition no_zero (c : color_t) : Prop := c.1.1 ≠ 0 ∧ c.1.2 ≠ 0 ∧ c.2 ≠ 0.

(** The calls logged from [s] to [s'] are all on the buffer [buf], each with
    one of the colours [cs] as OpenCV is to receive it. *)
Definition drew_with (buf : loc) (cs : list color_t) : relation state :=
  λ s s', ∃ new, calls s' = calls s ++ new
    ∧ Forall (λ c : loc * draw_call, c.1 = buf ∧ call_color c.2 ∈ cs) new.

(** The pairs of consecutive points. *)
Fixpoint segments {A} (pts : list A) : list (A * A) :=
  match pts with
  | p :: (q :: _) as tl => (p, q) :: segments tl
  | _ => []
  end.

(** The lines that stroke a ring or a line string: one for each pair of
    consecutive points, in the colour as OpenCV is to receive it. *)
Definition stroke_calls (ring : coords) (color : color_t) (kw : kwargs) : list draw_call :=
  (λ pq : point_t * point_t, cv2_line pq.1 pq.2 (_fix_color_tuple color) kw)
    <$> segments (np_array_int ring).


(** A state with an h x w colour image, both layers zero, and a square with
    a square hole in it. *)
Definition blank (h w : nat) : state :=
  State (<[2%positive := np_zeros h w 3]> (<[1%positive := np_zeros h w 3]> ∅)) [].

Definition img7 : Image :=
  {| desc := "Pyvision Image"; data := 1%positive; height := 7; width := 7;
     nchannels := 3; annotation_data := 2%positive |}.

Definition square : coords := [(0, 0); (6, 0); (6, 6); (0, 6); (0, 0)]%Q.
Definition hole : coords := [(2, 2); (4, 2); (4, 4); (2, 4); (2, 2)]%Q.

(** The geometry kinds [annotate_shape] knows how to draw. *)
Definition supported (shape : geometry) : bool :=
  match shape with
  | LineString _ | LinearRing _ | MultiLineString _ | Polygon _ _ => true
  | _ => false
  end.

(** A filled circle of radius 3 at the point, on the annotation layer: the
    words of the docstring of [annotate_point]. *)
Definition filled_circle_of_radius_3 `{Cv2} (self : Image) (point : Q * Q)
    (color : color_t) : M unit :=
  draw (annotation_data self)
       (cv2_circle (int point.1, int point.2) 3 (_fix_color_tuple color)
          {| thickness := Some (-1); lineType := None; shift := None |}).

(** ** Relations between states *)

(** Every array of [s] is still there in [s'], with the same shape. *)
Definition same_shapes : relation state :=
  λ s s', ∀ l a, heap s !! l = Some a →
    ∃ a', heap s' !! l = Some a' ∧ arr_shape a' = arr_shape a.

(** [arr[i, j, k] = v] by the caller, on the array at [l]. *)
Definition setitem_at (l : loc) (ix : idx) (v : Z) : M unit :=
  a <~ deref l ;;
  a' <~ lift IndexError (setitem a ix v) ;;
  store l a'.

(** Two images have no buffer in common. *)
Definition share_no_buffer (a b : Image) : Prop :=
  data a ≠ data b ∧ data a ≠ annotation_data b
  ∧ annotation_data a ≠ data b ∧ annotation_data a ≠ annotation_data b.

(** A 2 x 2 gray array of the caller, at location 1. *)
Definition gray2 : state :=
  State {[1%positive := of_gray_rows [[5; 6]; [7; 8]]]} [].

Definition img_gray2 : Image :=
  {| desc := "a"; data := 1%positive; height := 2; width := 2;
     nchannels := 1; annotation_data := 2%positive |}.

(** The overlay of [self] is the only array that differs between [s] and
    [s'], and no array appears or disappears. *)
Definition only_overlay (buf : loc) : relation state :=
  λ s s', (∀ l, l ≠ buf → heap s' !! l = heap s !! l) ∧ dom (heap s') = dom (heap s).

(** ** Display and saving *)

(** [a.shape[-1]] *)
Definition shape_last (sh : shape) : nat :=
  match sh with Shape2 _ w => w | Shape3 _ _ c => c end.

(** [a[:, :, k]]: IndexError on a 2-D array (too many indices) and for a
    channel out of range. *)
Definition get_channel (a : ndarray) (k : nat) : option ndarray :=
  match arr_shape a with
  | Shape3 h w c =>
      if decide (k < c)%nat
      then Some (NdArray (Shape2 h w) (λ i j _, item a i j k))
      else None
  | Shape2 _ _ => None
  end.

(** [a[:, :, k] = src], for [src] a channel of an array of the same height
    and width. *)
Definition set_channel (a : ndarray) (k : nat) (src : ndarray) : option ndarray :=
  match arr_shape a with
  | Shape3 h w c =>
      if decide (k < c)%nat
      then Some (NdArray (Shape3 h w c)
                   (λ i j k', if decide (k' = k) then item src i j 0 else item a i j k'))
      else None
  | Shape2 _ _ => None
  end.

(** The calls to the window system, to matplotlib and to the image codec,
    each with the array it is given as it is at the time of the call. *)
Inductive gui_call :=
| cv2_namedWindow (title : string)
| cv2_moveWindow (title : string) (x y : Z)
| cv2_imshow (title : string) (img : ndarray)
| cv2_waitKey (delay : Z)
| plot_imshow (img : ndarray)
| plot_title (title : string)
| plot_draw
| plot_show
| cv2_imwrite (filename : string) (img : ndarray) (args : list Z).

(** The key [cv2.waitKey] returns is the user's. *)
Class Gui := { waitKey : Z → Z }.

(** [show] returns the key in the highgui mode and nothing otherwise; the
    calls it makes are returned with it. *)
Definition show `{Gui} {np : Numpy} (self : Image) (window_title : option string)
    (highgui annotations : bool) (annotations_opacity : float64) (delay : Z)
    (pos : option point_t) : M (list gui_call * option Z) :=
  let window_title :=
    match window_title with
    | Some t => if decide (t = "") then desc self else t
    | None => desc self
    end in
  img_array <~ (if annotations then as_annotated self annotations_opacity
                else a <~ deref (data self) ;; alloc (copy a)) ;;
  if highgui then
    a <~ deref img_array ;;
    let key := waitKey delay in
    ret ([cv2_namedWindow window_title]
         ++ match pos with
            | Some p => [cv2_moveWindow window_title p.1 p.2]
            | None => []
            end
         ++ [cv2_imshow window_title a; cv2_waitKey delay], Some key)
  else
    a <~ deref img_array ;;
    (if decide (shape_last (arr_shape a) = 3%nat)
     then tmp <~ lift IndexError (get_channel a 0) ;;
          c2 <~ lift IndexError (get_channel a 2) ;;
          a1 <~ lift IndexError (set_channel a 0 c2) ;;
          store img_array a1 ;;;
          a1 <~ deref img_array ;;
          a2 <~ lift IndexError (set_channel a1 2 tmp) ;;
          store img_array a2
     else ret tt) ;;;
    a <~ deref img_array ;;
    ret ([plot_imshow a; plot_title window_title; plot_draw; plot_show], None).

Definition save {np : Numpy} (self : Image) (filename : string) (as_annotated_flag : bool)
    (args : list Z) : M (list gui_call) :=
  img_array <~ (if as_annotated_flag then as_annotated self (f64_lit 1 2)
                else ret (data self)) ;;
  a <~ deref img_array ;;
  ret [cv2_imwrite filename a args].

(** No array of [s0] is changed in [s], and nothing has been drawn. *)
Definition unchanged_from (s0 s : state) : Prop :=
  (∀ l, l ∈ dom (heap s0) → heap s !! l = heap s0 !! l) ∧ calls s = calls s0.


(** A user who presses Esc. *)
#[local] Instance esc_key : Gui := {| waitKey _ := 27 |}.

(** A 2 x 3 gray array of the caller, wrapped in an image. *)
Definition gray23 : state :=
  State (<[2%positive := np_zeros 2 3 3]>
           {[1%positive := of_gray_rows [[5; 6; 7]; [8; 9; 10]]]}) [].

Definition img_gray23 : Image :=
  {| desc := "gray"; data := 1%positive; height := 2; width := 3;
     nchannels := 1; annotation_data := 2%positive |}.

(** ** Tile selection (src/pyvision/dataset_tools/tile_selection.py)

    [pv3.ImageMontage] is not among the sources: what the selector needs of
    it, the indices the user highlights on a page, is a parameter.  So is the
    attribute [size] of a tile, which a tile may lack: reading it then raises
    AttributeError.  A tile generator is the list of the items it has still
    to yield. *)

Section TileSelector.
Context {Tile : Type}.
Context (size : Tile → option (nat * nat)).
Context (get_highlighted :
           list Tile → nat * nat → nat * nat → list string → string → list nat).

Definition tile_item : Type := string * Tile * option string.

Record TileSelector := {
  tile_gen : list tile_item;
  chunk_size : Z;
  layout : nat * nat;
  selected : list string;
  done : bool }.

Definition TileSelector_init (tile_generator : list tile_item) (chunk_size : Z)
    (layout : nat * nat) : TileSelector :=
  {| tile_gen := tile_generator; chunk_size := chunk_size; layout := layout;
     selected := []; done := false |}.

(** The loop that takes tiles from the generator until [count] reaches the
    chunk size or the generator is exhausted; the generator keeps the rest. *)
Fixpoint take_tiles (chunk_size : Z) (gen : list tile_item) (tiles : list Tile)
    (labels : list (option string)) (ids : list string) (count : Z)
    : list Tile * list (option string) * list string * Z * list tile_item :=
  match gen with
  | [] => (tiles, labels, ids, count, [])
  | (id, tile, lbl) :: gen' =>
      let tiles := tiles ++ [tile] in
      let labels := labels ++ [lbl] in
      let ids := ids ++ [id] in
      let count := count + 1 in
      if decide (chunk_size ≤ count) then (tiles, labels, ids, count, gen')
      else take_tiles chunk_size gen' tiles labels ids count
  end.

Inductive outcome :=
| Returned (self : TileSelector)
| Raised_IndexError (self : TileSelector)
| Raised_AttributeError (self : TileSelector).

Definition process_chunk (self : TileSelector) (page_num : nat) : outcome :=
  let '(tiles, labels, ids, count, gen) :=
    take_tiles (chunk_size self) (tile_gen self) [] [] [] 0 in
  let self := {| tile_gen := gen; chunk_size := chunk_size self; layout := layout self;
                 selected := selected self; done := done self |} in
  if decide (count = 0) then Returned self
  else
    let self := if decide (count < chunk_size self)
                then {| tile_gen := gen; chunk_size := chunk_size self;
                        layout := layout self; selected := selected self; done := true |}
                else self in
    match tiles with
    | [] => Raised_IndexError self
    | tile0 :: _ =>
        match size tile0 with
        | None => Raised_AttributeError self
        | Some tile_size =>
            let highlighted :=
              get_highlighted tiles (layout self) tile_size ids
                ("Tile selector: Page " +:+ pretty page_num) in
            match mapM (λ x, ids !! x) highlighted with
            | Some selected_ids =>
                Returned {| tile_gen := gen; chunk_size := chunk_size self;
                            layout := layout self;
                            selected := selected self ++ selected_ids; done := done self |}
            | None => Raised_IndexError self
            end
        end
    end.

(** [process_all]: the loop runs while [done] is not set; [None] when the
    fuel does not suffice. *)
Fixpoint process_all_loop (fuel : nat) (self : TileSelector) (page : nat)
    : option outcome :=
  if done self then Some (Returned self)
  else match fuel with
       | O => None
       | S fuel =>
           match process_chunk self page with
           | Returned self => process_all_loop fuel self (page + 1)
           | Raised_IndexError self => Some (Raised_IndexError self)
           | Raised_AttributeError self => Some (Raised_AttributeError self)
           end
       end.

Definition process_all (fuel : nat) (self : TileSelector) : option outcome :=
  process_all_loop fuel self 1.

(** Every tile of the generator has the attribute [size]. *)
Definition sized (gen : list tile_item) : Prop :=
  Forall (λ it : tile_item, is_Some (size it.1.2)) gen.

(** The montage only reports tiles that it shows. *)
Definition highlights_in_range : Prop :=
  ∀ tiles lay sz ids title,
    Forall (λ x, x < length ids)%nat (get_highlighted tiles lay sz ids title).

End TileSelector.

Arguments TileSelector : clear implicits.
Arguments outcome : clear implicits.
Arguments tile_item : clear implicits.

(** The class [Image] defines no attribute [size]. *)
Definition Image_size (tile : Image) : option (nat * nat) := None.

(** The ids a generator has still to yield. *)
Definition ids_of {Tile} (gen : list (tile_item Tile)) : list string :=
  (λ it : tile_item Tile, it.1.1) <$> gen.

(** A user who highlights the first tile of every page, and three tiles. *)
Definition first_tile {Tile} (tiles : list Tile) (lay sz : nat * nat) (ids : list string)
    (title : string) : list nat :=
  match ids with [] => [] | _ => [0%nat] end.

Definition three_tiles : list (tile_item nat) :=
  [("0", 10%nat, None); ("1", 11%nat, None); ("2", 12%nat, None)].

(** The states from which the loop of [process_all] cannot end. *)
Definition never_done {Tile} (self : TileSelector Tile) : Prop :=
  done self = false
  ∧ (chunk_size self ≤ 0
     ∨ ∃ c q : nat, chunk_size self = Z.of_nat c ∧ (1 ≤ c)%nat
                    ∧ length (tile_gen self) = (q * c)%nat).

(** ** Tile generators: [tiles_from_files] *)

(** What a generator can raise: the assertion of [tiles_from_files], or
    whatever loading an image raises. *)
Inductive gen_exn :=
| AssertionError
| Loading (e : exn).

(** The generator object: created and not yet started (nothing of the body
    has run), running at an index with the file names still to read, or
    finished. *)
Inductive files_gen :=
| gen_created (filenames : list string) (labels : option (list string))
| gen_running (idx : nat) (rest : list string) (labels : option (list string))
| gen_finished.

Definition yielded : Type := string * Image * option string.

(** One [next] on the generator: an item and the generator to go on with,
    or the end, or an exception (after which the generator is finished). *)
Inductive gen_step :=
| Yield (item : yielded) (g : files_gen) (s : state)
| StopIteration (s : state)
| GenRaise (e : gen_exn) (s : state).

Definition tiles_from_files (filenames : list string) (labels : option (list string))
    : files_gen :=
  gen_created filenames labels.

(** [None if labels is None else labels[idx]]; the outer [None] is an
    IndexError. *)
Definition label_at (labels : option (list string)) (idx : nat) : option (option string) :=
  match labels with
  | None => Some None
  | Some ls => Some <$> ls !! idx
  end.

(** One turn of the loop over [enumerate(filenames)]. *)
Definition next_running `{Cv2} (idx : nat) (rest : list string)
    (labels : option (list string)) (s : state) : gen_step :=
  match rest with
  | [] => StopIteration s
  | filen :: rest' =>
      match label_at labels idx with
      | None => GenRaise (Loading IndexError) s
      | Some lbl =>
          match __init__ (from_path filen) None "Pyvision Image" s with
          | Ok tile s' => Yield (pretty idx, tile, lbl) (gen_running (S idx) rest' labels) s'
          | Raise e s' => GenRaise (Loading e) s'
          end
      end
  end.

Definition next `{Cv2} (g : files_gen) (s : state) : gen_step :=
  match g with
  | gen_created filenames labels =>
      if match labels with
         | Some ls => bool_decide (length filenames = length ls)
         | None => true
         end
      then next_running 0 filenames labels s
      else GenRaise AssertionError s
  | gen_running idx rest labels => next_running idx rest labels s
  | gen_finished => StopIteration s
  end.

(** [list(gen)], as far as it gets: the items yielded, the exception that
    ended the iteration if any, and the final state. *)
Fixpoint collect `{Cv2} (fuel : nat) (g : files_gen) (s : state)
    : option (list yielded * option gen_exn * state) :=
  match fuel with
  | O => None
  | S fuel =>
      match next g s with
      | Yield item g' s' =>
          (λ r : list yielded * option gen_exn * state, (item :: r.1.1, r.1.2, r.2))
            <$> collect fuel g' s'
      | StopIteration s' => Some ([], None, s')
      | GenRaise e s' => Some ([], Some e, s')
      end
  end.

(** The item yielded for the [k]-th file name, in the state [s]: its id is
    the decimal [k], its label is the [k]-th label, and its image holds what
    was read from the file under a zero overlay. *)
Definition tile_of `{Cv2} (filenames : list string) (labels : option (list string))
    (s : state) (k : nat) (item : yielded) : Prop :=
  item.1.1 = pretty k
  ∧ label_at labels k = Some item.2
  ∧ ∃ filen base,
      filenames !! k = Some filen
      ∧ cv2_imread filen None = Some base
      ∧ heap s !! data item.1.2 = Some base
      ∧ heap s !! annotation_data item.1.2
        = Some (np_zeros (height item.1.2) (width item.1.2) 3).

(** Two files that can be read. *)
Definition two_files (path : string) : option ndarray :=
  if decide (path = "a.png") then Some (of_gray_rows [[1; 2]])
  else if decide (path = "b.png") then Some (of_rows [[[3; 4; 5]]])
  else None.

(** * Properties *)

(** ** Truncation and the blend *)

(** The integer part of a non-negative float is the floor of its value. *)
Lemma f64_trunc_value x v :
  f64_trunc x = Some v → (0 <= f64_value x)%Q →
  (inject_Z v <= f64_value x)%Q ∧ (f64_value x < inject_Z (v + 1))%Q.
Proof.
  destruct x as [s0|s0| |s m e]; simpl; try done.
  - intros [= <-] _. split; [done|reflexivity].
  - intros [= <-]. destruct s.
    + destruct e as [|p|p]; unfold Qle; simpl; lia.
    + intros _. destruct e as [|p|p].
      * unfold Qle, Qlt. simpl. lia.
      * unfold Qle, Qlt. simpl. lia.
      * unfold Qle, Qlt. cbn [Qnum Qden inject_Z].
        rewrite Pos2Z.inj_pow.
        pose proof (Z.pow_pos_nonneg 2 (Z.pos p)) as Hp.
        pose proof (Z.mul_div_le (Z.pos m) (2 ^ Z.pos p)) as H1.
        pose proof (Z.mul_succ_div_gt (Z.pos m) (2 ^ Z.pos p)) as H2.
        lia.
Qed.

Lemma truncs_to_spec x v : truncs_to x v = true ↔ f64_trunc x = Some v.
Proof.
  unfold truncs_to. destruct (f64_trunc x) as [v'|]; [|done].
  rewrite Z.eqb_eq. split; congruence.
Qed.

(** In range, the stored value is the integer part. *)
Lemma astype_uint8_trunc `{Numpy} x v :
  f64_trunc x = Some v → 0 ≤ v < 256 → astype_uint8 x = v.
Proof. intros Hx Hv. unfold astype_uint8. rewrite Hx. by rewrite decide_True. Qed.

Lemma astype_uint8_range `{Numpy} x : 0 ≤ astype_uint8 x < 256.
Proof.
  unfold astype_uint8. destruct (f64_trunc x) as [v|]; [|apply cast_undefined_uint8].
  case_decide; [done|apply cast_undefined_uint8].
Qed.

(** A property of [uint8] values can be checked on all of them. *)
Lemma In_uint8s v : 0 ≤ v < 256 → In v uint8s.
Proof.
  intros Hv. unfold uint8s. apply in_map_iff. exists (Z.to_nat v).
  split; [lia|]. apply in_seq. lia.
Qed.

Lemma uint8_forall (f : Z → bool) :
  forallb f uint8s = true → ∀ v, 0 ≤ v < 256 → f v = true.
Proof. rewrite forallb_forall. intros Hall v Hv. by apply Hall, In_uint8s. Qed.

Lemma check2_spec F G P :
  check2 F G P = true → ∀ o b, 0 ≤ o < 256 → 0 ≤ b < 256 → P (F o) (G b) o b = true.
Proof.
  unfold check2. cbv zeta. rewrite forallb_forall. intros Hall o b Ho Hb.
  specialize (Hall o (In_uint8s o Ho)). rewrite forallb_forall in Hall.
  apply (Hall (b, G b)). apply in_map_iff. exists b. split; [done|by apply In_uint8s].
Qed.

Lemma is_pos_zero_spec x : is_pos_zero x = true → x = S754_zero false.
Proof. by destruct x as [[]| | |]. Qed.

(** At the opacities 0.0 and 1.0 the blend is the base and the overlay; at
    0.5 it is the mean of the two, and its integer part is stored. *)
Lemma blend_0 (o b : Z) :
  0 ≤ o < 256 → 0 ≤ b < 256 → f64_trunc (blend (f64_of_Z 0) o b) = Some b.
Proof.
  intros Ho Hb. unfold blend.
  rewrite (is_pos_zero_spec (f64_mul (f64_of_Z 0) (f64_of_Z o))).
  - apply truncs_to_spec.
    apply (uint8_forall (λ b, truncs_to (f64_add (S754_zero false)
             (f64_mul (f64_sub (f64_of_Z 1) (f64_of_Z 0)) (f64_of_Z b))) b)); [|done].
    vm_compute. reflexivity.
  - apply (uint8_forall (λ o, is_pos_zero (f64_mul (f64_of_Z 0) (f64_of_Z o)))); [|done].
    vm_compute. reflexivity.
Qed.

Lemma blend_1 (o b : Z) :
  0 ≤ o < 256 → 0 ≤ b < 256 → f64_trunc (blend (f64_of_Z 1) o b) = Some o.
Proof.
  intros Ho Hb. unfold blend.
  rewrite (is_pos_zero_spec (f64_mul (f64_sub (f64_of_Z 1) (f64_of_Z 1)) (f64_of_Z b))).
  - apply truncs_to_spec.
    apply (uint8_forall (λ o, truncs_to (f64_add (f64_mul (f64_of_Z 1) (f64_of_Z o))
                                           (S754_zero false)) o)); [|done].
    vm_compute. reflexivity.
  - apply (uint8_forall (λ b, is_pos_zero (f64_mul (f64_sub (f64_of_Z 1) (f64_of_Z 1))
                                             (f64_of_Z b)))); [|done].
    vm_compute. reflexivity.
Qed.

Lemma blend_half (o b : Z) :
  0 ≤ o < 256 → 0 ≤ b < 256 → f64_trunc (blend (f64_lit 1 2) o b) = Some ((o + b) / 2).
Proof.
  intros Ho Hb. apply truncs_to_spec.
  apply (check2_spec (λ o, f64_mul (f64_lit 1 2) (f64_of_Z o))
           (λ b, f64_mul (f64_sub (f64_of_Z 1) (f64_lit 1 2)) (f64_of_Z b))
           (λ x y o b, truncs_to (f64_add x y) ((o + b) / 2))); [|done..].
  vm_compute. reflexivity.
Qed.

(** ** Index lists, masks and assignment through a mask *)

Lemma elem_of_indices h w c i j k :
  (i, j, k) ∈ indices h w c ↔ (i < h ∧ j < w ∧ k < c)%nat.
Proof.
  unfold indices. rewrite list_elem_of_bind. split.
  - intros (i' & Hin & Hi). apply list_elem_of_bind in Hin as (j' & Hin & Hj).
    apply list_elem_of_bind in Hin as (k' & Hin & Hk).
    apply list_elem_of_singleton in Hin. simplify_eq.
    apply elem_of_seq in Hi, Hj, Hk. lia.
  - intros (Hi & Hj & Hk). exists i. split; [|apply elem_of_seq; lia].
    apply list_elem_of_bind. exists j. split; [|apply elem_of_seq; lia].
    apply list_elem_of_bind. exists k. split; [|apply elem_of_seq; lia].
    by apply list_elem_of_singleton.
Qed.

Lemma elem_of_nonzero3 h w c px i j k :
  (i, j, k) ∈ nonzero3 h w c px ↔ (i < h ∧ j < w ∧ k < c)%nat ∧ px i j k ≠ 0.
Proof.
  unfold nonzero3. rewrite list_elem_of_filter, elem_of_indices. simpl. tauto.
Qed.

Lemma in_bounds_Shape3 h w c i j k :
  in_bounds (Shape3 h w c) (i, j, k) = true ↔ (i < h ∧ j < w ∧ k < c)%nat.
Proof.
  simpl. rewrite !andb_true_iff, !bool_decide_eq_true. tauto.
Qed.

Lemma getitems_in_bounds a mask :
  Forall (λ ix, in_bounds (arr_shape a) ix = true) mask →
  getitems a mask = Some ((λ ix : idx, item a ix.1.1 ix.1.2 ix.2) <$> mask).
Proof.
  intros Hb. unfold getitems. apply mapM_Some_2.
  induction Hb as [|ix mask Hix _ IH]; simpl; constructor; [|done].
  unfold getitem. by rewrite Hix.
Qed.

(** Writing [F ix] at every index [ix] of the mask. *)
Lemma setitems_fmap (F : idx → Z) mask : ∀ a,
  Forall (λ ix, in_bounds (arr_shape a) ix = true) mask →
  ∃ a', setitems a mask (F <$> mask) = Some a'
        ∧ arr_shape a' = arr_shape a
        ∧ ∀ i j k, item a' i j k =
            if decide ((i, j, k) ∈ mask) then F (i, j, k) else item a i j k.
Proof.
  induction mask as [|ix mask IH]; intros a Hb.
  - exists a. split_and!; [done..|]. intros i j k.
    case_decide as Hin; [by apply elem_of_nil in Hin | done].
  - apply Forall_cons in Hb as [Hix Hb]. simpl. unfold setitem at 1. rewrite Hix. simpl.
    edestruct (IH (NdArray (arr_shape a)
      (λ i j k, if decide ((i, j, k) = ix) then F ix else item a i j k)))
      as (a' & Hset & Hsh & Hit); [done|].
    exists a'. split_and!; [done..|]. intros i j k. rewrite Hit. simpl.
    destruct (decide ((i, j, k) ∈ ix :: mask)) as [Hin'|Hin'];
      rewrite elem_of_cons in Hin'.
    + destruct (decide ((i, j, k) ∈ mask)) as [Hin|Hin]; [done|].
      destruct Hin' as [Heq|?]; [|done]. rewrite decide_True by done. by rewrite Heq.
    + rewrite decide_False by tauto. by rewrite decide_False by tauto.
Qed.

(** ** Compositing *)

Lemma composite_spec `{Numpy} h w nch alpha base ann :
  layers_ok h w nch base ann → convertible h w nch →
  ∃ out, composite nch alpha base ann = Some out
    ∧ arr_shape out = Shape3 h w (out_channels nch)
    ∧ ∀ i j k, item out i j k =
        if decide ((i < h ∧ j < w ∧ k < 3)%nat ∧ item ann i j k ≠ 0)
        then astype_uint8 (blend alpha (item ann i j k) (bgr nch base i j k))
        else bgr nch base i j k.
Proof.
  intros [Hann Hbase] Hconv. unfold composite. rewrite Hann.
  assert (∃ tmp, (if decide (nch = 1%nat) then cvtColor_GRAY2BGR base
                  else Some (copy base)) = Some tmp
            ∧ arr_shape tmp = Shape3 h w (out_channels nch)
            ∧ item tmp = bgr nch base) as (tmp & -> & Hsh & Hit).
  { unfold bgr, out_channels, cvtColor_GRAY2BGR, copy.
    destruct (decide (nch = 1%nat)) as [->|Hn].
    - destruct (Hconv eq_refl) as [Hh Hw].
      destruct Hbase as [[-> _]|[-> _]]; rewrite decide_False by lia; eauto.
    - destruct Hbase as [[_ ?]|[-> _]]; [done|eauto]. }
  cbn [mbind option_bind].
  set (mask := nonzero3 h w 3 (item ann)).
  assert (Forall (λ ix, in_bounds (arr_shape ann) ix = true) mask) as Hba.
  { apply Forall_forall. intros [[i j] k] [Hin _]%elem_of_nonzero3.
    rewrite Hann. by apply in_bounds_Shape3. }
  assert (Forall (λ ix, in_bounds (arr_shape tmp) ix = true) mask) as Hbt.
  { apply Forall_forall. intros [[i j] k] [Hin _]%elem_of_nonzero3.
    rewrite Hsh. apply in_bounds_Shape3. unfold out_channels.
    destruct Hbase as [[_ ->]|[_ [->|?]]]; case_decide; lia. }
  rewrite (getitems_in_bounds _ _ Hba), (getitems_in_bounds _ _ Hbt).
  cbn [mbind option_bind].
  rewrite zip_with_fmap_l, zip_with_fmap_r, zip_with_diag, <-list_fmap_compose.
  destruct (setitems_fmap
    (astype_uint8 ∘ (λ ix : idx, blend alpha (item ann ix.1.1 ix.1.2 ix.2)
                                  (item tmp ix.1.1 ix.1.2 ix.2))) mask tmp Hbt)
    as (out & Hset & Hsho & Hout).
  exists out. split_and!; [done|congruence|]. intros i j k. rewrite Hout.
  unfold mask. rewrite Hit. simpl.
  destruct (decide ((i, j, k) ∈ nonzero3 h w 3 (item ann))) as [Hin|Hin];
    rewrite elem_of_nonzero3 in Hin.
  - by rewrite decide_True.
  - by rewrite decide_False.
Qed.

Lemma as_annotated_Ok `{Numpy} self alpha s l s' :
  as_annotated self alpha s = Ok l s' ↔
  ∃ base ann new,
    heap s !! data self = Some base ∧ heap s !! annotation_data self = Some ann ∧
    composite (nchannels self) alpha base ann = Some new ∧
    l = fresh (dom (heap s)) ∧ s' = State (<[l := new]> (heap s)) (calls s).
Proof.
  unfold as_annotated, composite, bind, deref, nonzero, lift, alloc, store, ret, raise.
  split.
  - destruct (heap s !! annotation_data self) as [ann|] eqn:Hann; [|done].
    destruct (arr_shape ann) as [h w|h w c] eqn:Hsh; [done|].
    destruct (heap s !! data self) as [base|] eqn:Hbase; [|done].
    intros Hrun. exists base, ann. rewrite Hsh. cbn [mbind option_bind].
    destruct (decide (nchannels self = 1%nat)) as [Hn|Hn].
    + destruct (cvtColor_GRAY2BGR base) as [tmp|]; [|done]. cbn [heap calls mbind option_bind] in *.
      destruct (getitems ann _) as [o|]; [|done]. cbn [heap calls mbind option_bind] in *.
      rewrite lookup_insert_eq in Hrun.
      destruct (getitems tmp _) as [b|]; [|done]. cbn [heap calls mbind option_bind] in *.
      destruct (setitems tmp _ _) as [new|]; [|done]. cbn [heap calls] in *.
      rewrite insert_insert_eq in Hrun. exists new. by simplify_eq.
    + cbn [heap calls mbind option_bind] in *.
      destruct (getitems ann _) as [o|]; [|done]. cbn [heap calls mbind option_bind] in *.
      rewrite lookup_insert_eq in Hrun.
      destruct (getitems (copy base) _) as [b|]; [|done]. cbn [heap calls mbind option_bind] in *.
      destruct (setitems (copy base) _ _) as [new|]; [|done]. cbn [heap calls] in *.
      rewrite insert_insert_eq in Hrun. exists new. by simplify_eq.
  - intros (base & ann & new & Hbase & Hann & Hc & -> & ->).
    rewrite Hann. destruct (arr_shape ann) as [h w|h w c] eqn:Hsh; [done|].
    rewrite Hbase. cbn [mbind option_bind] in *.
    destruct (decide (nchannels self = 1%nat)) as [Hn|Hn].
    + destruct (cvtColor_GRAY2BGR base) as [tmp|]; [|done]. cbn [heap calls mbind option_bind] in *.
      destruct (getitems ann _) as [o|]; [|done]. cbn [heap calls mbind option_bind] in *.
      rewrite lookup_insert_eq.
      destruct (getitems tmp _) as [b|]; [|done]. cbn [heap calls mbind option_bind] in *.
      rewrite Hc. cbn [heap calls]. by rewrite insert_insert_eq.
    + cbn [heap calls mbind option_bind] in *.
      destruct (getitems ann _) as [o|]; [|done]. cbn [heap calls mbind option_bind] in *.
      rewrite lookup_insert_eq.
      destruct (getitems (copy base) _) as [b|]; [|done]. cbn [heap calls mbind option_bind] in *.
      rewrite Hc. cbn [heap calls]. by rewrite insert_insert_eq.
Qed.

(** Also when it raises, [as_annotated] changes no array that was in the
    store and draws nothing. *)
Lemma as_annotated_frame `{Numpy} self alpha s :
  (∀ l0, l0 ∈ dom (heap s) →
     heap (state_of (as_annotated self alpha s)) !! l0 = heap s !! l0)
  ∧ calls (state_of (as_annotated self alpha s)) = calls s.
Proof.
  assert (∀ a l0, l0 ∈ dom (heap s) →
            (<[fresh (dom (heap s)) := a]> (heap s)) !! l0 = heap s !! l0) as Hframe.
  { intros a l0 Hl0. apply lookup_insert_ne. intros <-. by apply (is_fresh (dom (heap s))). }
  unfold as_annotated, bind, deref, nonzero, lift, alloc, store, ret, raise.
  destruct (heap s !! annotation_data self) as [ann|]; [|done].
  destruct (arr_shape ann) as [h w|h w c]; [done|].
  destruct (heap s !! data self) as [base|]; [|done].
  destruct (decide (nchannels self = 1%nat)) as [Hn|Hn].
  - destruct (cvtColor_GRAY2BGR base) as [tmp|]; [|done]. cbn [heap calls].
    destruct (getitems ann _) as [o|]; [|by split; [apply Hframe|]]. cbn [heap calls].
    rewrite lookup_insert_eq.
    destruct (getitems tmp _) as [b|]; [|by split; [apply Hframe|]]. cbn [heap calls].
    destruct (setitems tmp _ _) as [new|]; [|by split; [apply Hframe|]].
    cbn [heap calls state_of]. rewrite insert_insert_eq. by split; [apply Hframe|].
  - cbn [heap calls].
    destruct (getitems ann _) as [o|]; [|by split; [apply Hframe|]]. cbn [heap calls].
    rewrite lookup_insert_eq.
    destruct (getitems (copy base) _) as [b|]; [|by split; [apply Hframe|]]. cbn [heap calls].
    destruct (setitems (copy base) _ _) as [new|]; [|by split; [apply Hframe|]].
    cbn [heap calls state_of]. rewrite insert_insert_eq. by split; [apply Hframe|].
Qed.

Lemma bgr_uint8 h w nch base ann i j k :
  layers_ok h w nch base ann → uint8_array base →
  (i < h)%nat → (j < w)%nat → (k < out_channels nch)%nat →
  0 ≤ bgr nch base i j k < 256.
Proof.
  intros [_ Hbase] Hu Hi Hj Hk. unfold bgr, out_channels in *.
  destruct Hbase as [[Hsh ->]|[Hsh Hn]].
  - rewrite decide_True by done. apply Hu. rewrite Hsh. simpl.
    by rewrite !bool_decide_eq_true_2.
  - case_decide as Hn1.
    + apply Hu. rewrite Hsh. apply in_bounds_Shape3. lia.
    + apply Hu. rewrite Hsh. by apply in_bounds_Shape3.
Qed.

(** The raster [as_annotated] returns, element by element. *)
Lemma as_annotated_spec `{Numpy} s self alpha base ann :
  heap s !! data self = Some base →
  heap s !! annotation_data self = Some ann →
  layers_ok (height self) (width self) (nchannels self) base ann →
  convertible (height self) (width self) (nchannels self) →
  ∃ out, let l := fresh (dom (heap s)) in
    as_annotated self alpha s = Ok l (State (<[l := out]> (heap s)) (calls s))
    ∧ arr_shape out = Shape3 (height self) (width self) (out_channels (nchannels self))
    ∧ ∀ i j k, item out i j k =
        if decide ((i < height self ∧ j < width self ∧ k < 3)%nat ∧ item ann i j k ≠ 0)
        then astype_uint8 (blend alpha (item ann i j k) (bgr (nchannels self) base i j k))
        else bgr (nchannels self) base i j k.
Proof.
  intros Hbase Hann Hok Hconv.
  destruct (composite_spec _ _ _ alpha _ _ Hok Hconv) as (out & Hc & Hsh & Hout).
  exists out. split_and!; [|done..]. apply as_annotated_Ok. by exists base, ann, out.
Qed.

(** ** Concrete rasters *)

Lemma uint8_arrayb_true a : uint8_arrayb a = true → uint8_array a.
Proof.
  unfold uint8_arrayb, uint8_array. rewrite forallb_forall. intros Hall i j k Hb.
  specialize (Hall (i, j, k)). simpl in Hall.
  assert ((i, j, k) ∈ all_indices (arr_shape a)) as Hin.
  { destruct (arr_shape a) as [h w|h w c]; simpl in *; apply elem_of_indices.
    - rewrite !andb_true_iff, !bool_decide_eq_true in Hb. lia.
    - rewrite !andb_true_iff, !bool_decide_eq_true in Hb. lia. }
  apply list_elem_of_In in Hin. apply Hall in Hin.
  apply andb_true_iff in Hin as [?%Z.leb_le ?%Z.ltb_lt]. lia.
Qed.

Lemma one_pixel_image_in base ann :
  length base = 3%nat → length ann = 3%nat →
  uint8_arrayb (of_rows [[base]]) = true → uint8_arrayb (of_rows [[ann]]) = true →
  image_in (one_pixel base ann) img1 (of_rows [[base]]) (of_rows [[ann]]).
Proof.
  intros Hb Ha Hub Hua. split.
  - done.
  - done.
  - split; simpl; [by rewrite Ha|]. right. rewrite Hb. split; [done|lia].
  - by apply uint8_arrayb_true.
  - by apply uint8_arrayb_true.
Qed.

(** ** as_annotated: which elements are blended, and to what *)

Lemma convertible_colour h w nch : nch ≠ 1%nat → convertible h w nch.
Proof. by intros ? ?. Qed.

(** A single-channel image without pixels cannot be composited: OpenCV
    rejects the conversion, before any array is made. *)
Lemma as_annotated_empty_gray `{Numpy} s self alpha base ann :
  heap s !! data self = Some base →
  heap s !! annotation_data self = Some ann →
  layers_ok (height self) (width self) (nchannels self) base ann →
  ¬ convertible (height self) (width self) (nchannels self) →
  as_annotated self alpha s = Raise cv2_error s.
Proof.
  intros Hbase Hann [Hsa Hsb] Hconv.
  assert (nchannels self = 1%nat ∧ (height self = 0 ∨ width self = 0)%nat) as [Hn Hhw].
  { unfold convertible in Hconv. destruct (decide (nchannels self = 1%nat)); [|tauto].
    split; [done|]. destruct (height self), (width self); auto. exfalso. apply Hconv. lia. }
  unfold as_annotated, bind, deref, nonzero, lift, alloc, ret, raise.
  rewrite Hann, Hsa, Hbase, decide_True by done. unfold cvtColor_GRAY2BGR.
  destruct Hsb as [[-> _]|[-> _]]; rewrite ?Hn, decide_True by done; done.
Qed.

(** C1, as stated, fails: on the pixel with base (9,8,9) and overlay (0,5,0),
    at opacity 0.5, the result is (9,6,9).  Channel 0 is not blended at all
    (its overlay element is zero: the mask is taken element by element), and
    channel 1 holds 6, the integer part of 6.5. *)
Lemma as_annotated_whole_pixel_counterexample :
  ∃ l s' out,
    as_annotated (np := zero_cast) img1 (f64_lit 1 2) (one_pixel [9; 8; 9] [0; 5; 0])
    = Ok l s'
    ∧ heap s' !! l = Some out
    ∧ (f64_value (f64_lit 1 2) == 1 # 2)%Q
    ∧ (item out 0 0 0 = 9 ∧ item out 0 0 1 = 6 ∧ item out 0 0 2 = 9)
    ∧ ¬ blends_whole_pixels img1 (1 # 2) (of_rows [[[9; 8; 9]]]) (of_rows [[[0; 5; 0]]]) out.
Proof.
  destruct (one_pixel_image_in [9; 8; 9] [0; 5; 0]) as [Hb Ha Hok _ _];
    [reflexivity..|].
  destruct (as_annotated_spec (H := zero_cast) _ _ (f64_lit 1 2) _ _ Hb Ha Hok)
    as (out & Hrun & _ & Hout);
    [by apply convertible_colour|].
  eexists _, _, out. split; [exact Hrun|]. split; [apply lookup_insert_eq|].
  split; [reflexivity|].
  assert (item out 0 0 0 = 9 ∧ item out 0 0 1 = 6 ∧ item out 0 0 2 = 9) as Hpx.
  { rewrite !Hout. split_and!; vm_compute; reflexivity. }
  split; [exact Hpx|]. intros Hclaim.
  destruct (Hclaim 0%nat 0%nat) as [_ Hblend]; [simpl; lia..|].
  assert (∃ k, (k < 3)%nat ∧ item (of_rows [[[0; 5; 0]]]) 0 0 k ≠ 0) as Hnz.
  { exists 1%nat. split; [lia|]. vm_compute. discriminate. }
  assert (0 < 3)%nat as H03 by lia.
  specialize (Hblend Hnz 0%nat H03).
  destruct Hpx as (Hpx & _). rewrite Hpx in Hblend.
  vm_compute in Hblend. discriminate.
Qed.

(** C1 (amended).  For an 8-bit image and every opacity, [as_annotated]
    returns a new raster of three channels (for a single-channel base, its
    conversion to three channels; a single-channel base without pixels makes
    OpenCV raise).  Every element whose overlay element is zero keeps the base
    value, so a pixel whose overlay is all zero equals the base pixel; every
    element whose overlay element is non-zero holds the float64 value of
    [alpha * overlay + (1 - alpha) * base] cast to uint8, that is its integer
    part when this is in 0..255. *)
Theorem as_annotated_blends_per_element `{Numpy} s self alpha base ann :
  image_in s self base ann →
  (convertible (height self) (width self) (nchannels self) →
   ∃ l out,
     as_annotated self alpha s = Ok l (State (<[l := out]> (heap s)) (calls s))
     ∧ (l ∉ dom (heap s))
     ∧ arr_shape out = Shape3 (height self) (width self) (out_channels (nchannels self))
     ∧ ∀ i j, (i < height self)%nat → (j < width self)%nat →
         (∀ k, ((3 ≤ k)%nat ∨ item ann i j k = 0) →
            item out i j k = bgr (nchannels self) base i j k)
         ∧ ((∀ k, (k < 3)%nat → item ann i j k = 0) →
            ∀ k, item out i j k = bgr (nchannels self) base i j k)
         ∧ (∀ k, (k < 3)%nat → item ann i j k ≠ 0 →
            let x := blend alpha (item ann i j k) (bgr (nchannels self) base i j k) in
            item out i j k = astype_uint8 x
            ∧ ∀ v, f64_trunc x = Some v → 0 ≤ v < 256 → item out i j k = v))
  ∧ (¬ convertible (height self) (width self) (nchannels self) →
     as_annotated self alpha s = Raise cv2_error s).
Proof.
  intros [Hbase Hann Hok Hub Hua].
  split; [|by apply (as_annotated_empty_gray s self alpha base ann)].
  intros Hconv.
  destruct (as_annotated_spec s self alpha base ann) as (out & Hrun & Hsh & Hout); [done..|].
  exists (fresh (dom (heap s))), out. split_and!; [done|apply is_fresh|done|].
  intros i j Hi Hj. split_and!.
  - intros k Hk. rewrite Hout. apply decide_False. intros [(_ & _ & ?) ?]. lia.
  - intros Hzero k. rewrite Hout. apply decide_False. intros [(_ & _ & ?) ?]. auto.
  - intros k Hk Hnz x. subst x. rewrite Hout, decide_True by done.
    split; [done|]. intros v Hx Hv. by apply astype_uint8_trunc.
Qed.

Lemma as_annotated_blends_per_element_witness :
  ∃ l out,
    as_annotated (np := zero_cast) img1 (f64_lit 1 2) (one_pixel [9; 8; 9] [0; 5; 0])
    = Ok l (State (<[l := out]> (heap (one_pixel [9; 8; 9] [0; 5; 0]))) [])
    ∧ item out 0 0 0 = 9 ∧ item out 0 0 1 = 6.
Proof.
  destruct (as_annotated_blends_per_element (H := zero_cast)
              (one_pixel [9; 8; 9] [0; 5; 0]) img1
              (f64_lit 1 2) (of_rows [[[9; 8; 9]]]) (of_rows [[[0; 5; 0]]]))
    as [Hok _].
  - apply one_pixel_image_in; reflexivity.
  - destruct Hok as (l & out & Hrun & _ & _ & Hout); [by apply convertible_colour|].
    exists l, out. split; [exact Hrun|].
    destruct (Hout 0%nat 0%nat) as (Hz & _ & Hb); [simpl; lia..|].
    split.
    + rewrite (Hz 0%nat); [reflexivity|]. right. reflexivity.
    + destruct (Hb 1%nat) as [_ Hv]; [lia|vm_compute; discriminate|].
      apply Hv; [vm_compute; reflexivity|lia].
Defined.

(** The arithmetic is that of floats: at the opacity 0.3, overlay 1 over
    base 11 stores 7, for 0.3 + 7.699999999999999 is 7.999999999999999 and
    not 8; and at the opacity 0.01, overlay 3 over base 3 stores 2. *)
Example blend_of_doubles `{Numpy} :
  astype_uint8 (blend (f64_lit 3 10) 1 11) = 7
  ∧ Qfloor (blend_exact (f64_value (f64_lit 3 10)) 1 11) = 8
  ∧ astype_uint8 (blend (f64_lit 1 100) 3 3) = 2.
Proof.
  split_and!; [apply astype_uint8_trunc; [vm_compute; reflexivity|lia]
              |vm_compute; reflexivity
              |apply astype_uint8_trunc; [vm_compute; reflexivity|lia]].
Qed.

(** ** as_annotated: the value of a blended element *)

(** C4, as stated, fails: with base (1,1,1), overlay (2,2,2) and opacity
    0.75 the blend is 1.75 in each channel, exactly, and the result holds 1,
    not 2. *)
Lemma as_annotated_round_counterexample :
  ∃ l s' out,
    as_annotated (np := zero_cast) img1 (f64_lit 3 4) (one_pixel [1; 1; 1] [2; 2; 2])
    = Ok l s'
    ∧ heap s' !! l = Some out
    ∧ (f64_value (f64_lit 3 4) == 3 # 4)%Q
    ∧ (f64_value (blend (f64_lit 3 4) 2 1) == 7 # 4)%Q
    ∧ (blend_exact (3 # 4) 2 1 == 7 # 4)%Q
    ∧ item out 0 0 0 = 1
    ∧ ¬ rounds_drawn_pixels img1 (3 # 4) (of_rows [[[1; 1; 1]]]) (of_rows [[[2; 2; 2]]]) out.
Proof.
  destruct (one_pixel_image_in [1; 1; 1] [2; 2; 2]) as [Hb Ha Hok _ _];
    [reflexivity..|].
  destruct (as_annotated_spec (H := zero_cast) _ _ (f64_lit 3 4) _ _ Hb Ha Hok)
    as (out & Hrun & _ & Hout);
    [by apply convertible_colour|].
  eexists _, _, out. split; [exact Hrun|]. split; [apply lookup_insert_eq|].
  split; [reflexivity|]. split; [reflexivity|]. split; [reflexivity|].
  assert (item out 0 0 0 = 1) as Hpx by (rewrite Hout; vm_compute; reflexivity).
  split; [exact Hpx|]. intros Hclaim.
  assert (drawn (of_rows [[[2; 2; 2]]]) 0 0) as Hdrawn.
  { intros [|[|[|k]]] Hk; [vm_compute; discriminate..|lia]. }
  assert (0 < 1)%nat as H01 by lia. assert (0 < 3)%nat as H03 by lia.
  specialize (Hclaim 0%nat 0%nat H01 H01 Hdrawn 0%nat H03).
  rewrite Hpx in Hclaim. vm_compute in Hclaim. by apply Hclaim.
Qed.

(** C4 (amended).  At a pixel of an 8-bit image whose overlay holds a drawn
    colour (every component at least 1), each channel of [as_annotated(alpha)]
    is the float64 value of [alpha * overlay + (1 - alpha) * base] cast to
    uint8: when its integer part is in 0..255 that integer part is stored, so
    the blend is truncated, not rounded.  [as_annotated(0.0)] equals the base
    raster everywhere and [as_annotated(1.0)] equals the overlay at every
    drawn pixel. *)
Theorem as_annotated_truncates `{Numpy} s self alpha base ann :
  image_in s self base ann →
  convertible (height self) (width self) (nchannels self) →
  ∃ l out,
    as_annotated self alpha s = Ok l (State (<[l := out]> (heap s)) (calls s))
    ∧ (∀ i j, (i < height self)%nat → (j < width self)%nat → drawn ann i j →
         ∀ k, (k < 3)%nat →
           let x := blend alpha (item ann i j k) (bgr (nchannels self) base i j k) in
           item out i j k = astype_uint8 x
           ∧ ∀ v, f64_trunc x = Some v → 0 ≤ v < 256 →
               item out i j k = v
               ∧ ((0 <= f64_value x)%Q →
                  (inject_Z (item out i j k) <= f64_value x)%Q
                  ∧ (f64_value x < inject_Z (item out i j k + 1))%Q))
    ∧ (alpha = f64_of_Z 0 →
         ∀ i j k, (i < height self)%nat → (j < width self)%nat →
           (k < out_channels (nchannels self))%nat →
           item out i j k = bgr (nchannels self) base i j k)
    ∧ (alpha = f64_of_Z 1 →
         ∀ i j, (i < height self)%nat → (j < width self)%nat → drawn ann i j →
           ∀ k, (k < 3)%nat → item out i j k = item ann i j k).
Proof.
  intros [Hbase Hann Hok Hub Hua] Hconv.
  destruct (as_annotated_spec s self alpha base ann) as (out & Hrun & Hsh & Hout); [done..|].
  assert (∀ i j k, (i < height self)%nat → (j < width self)%nat → (k < 3)%nat →
            0 ≤ item ann i j k < 256) as Hann8.
  { intros i j k Hi Hj Hk. apply Hua. destruct Hok as [-> _]. by apply in_bounds_Shape3. }
  assert (∀ k, (k < 3)%nat → (k < out_channels (nchannels self))%nat) as Hk3.
  { intros k Hk. unfold out_channels.
    destruct Hok as [_ [[_ ->]|[_ [->|?]]]]; case_decide; lia. }
  exists (fresh (dom (heap s))), out. split_and!; [done|..].
  - intros i j Hi Hj Hd k Hk x. subst x. rewrite Hout.
    rewrite decide_True by (split; [done|]; specialize (Hd k Hk); lia).
    split; [done|]. intros v Hx Hv.
    rewrite (astype_uint8_trunc _ v) by done. split; [done|].
    intros Hpos. by apply f64_trunc_value.
  - intros -> i j k Hi Hj Hk. rewrite Hout. case_decide as Hc; [|done].
    destruct Hc as [(_ & _ & Hk') _].
    assert (0 ≤ bgr (nchannels self) base i j k < 256) as Hb8 by (by eapply bgr_uint8; eauto).
    apply astype_uint8_trunc; [|done]. apply blend_0; [by apply Hann8|done].
  - intros -> i j Hi Hj Hd k Hk. rewrite Hout.
    rewrite decide_True by (split; [done|]; specialize (Hd k Hk); lia).
    assert (0 ≤ bgr (nchannels self) base i j k < 256) as Hb8 by (by eapply bgr_uint8; eauto).
    apply astype_uint8_trunc; [|by apply Hann8]. apply blend_1; [by apply Hann8|done].
Qed.

Lemma as_annotated_truncates_witness :
  ∃ l out,
    as_annotated (np := zero_cast) img1 (f64_lit 3 4) (one_pixel [1; 1; 1] [2; 2; 2])
    = Ok l (State (<[l := out]> (heap (one_pixel [1; 1; 1] [2; 2; 2]))) [])
    ∧ item out 0 0 0 = 1
    ∧ (inject_Z (item out 0 0 0) <= 7 # 4)%Q
    ∧ (7 # 4 < inject_Z (item out 0 0 0 + 1))%Q.
Proof.
  destruct (as_annotated_truncates (H := zero_cast)
              (one_pixel [1; 1; 1] [2; 2; 2]) img1 (f64_lit 3 4)
              (of_rows [[[1; 1; 1]]]) (of_rows [[[2; 2; 2]]]))
    as (l & out & Hrun & Hout & _ & _).
  - apply one_pixel_image_in; reflexivity.
  - by apply convertible_colour.
  - exists l, out. split; [exact Hrun|].
    assert (0 < 1)%nat as H01 by lia. assert (0 < 3)%nat as H03 by lia.
    assert (drawn (of_rows [[[2; 2; 2]]]) 0 0) as Hdrawn.
    { intros [|[|[|k]]] Hk; [vm_compute; discriminate..|lia]. }
    destruct (Hout 0%nat 0%nat H01 H01 Hdrawn 0%nat H03) as [_ Hv].
    destruct (Hv 1) as [Hone Hbounds]; [vm_compute; reflexivity|lia|].
    split; [exact Hone|]. rewrite Hone. split; vm_compute; discriminate || reflexivity.
Defined.

(** ** as_annotated: no effect on the image, and the same result again *)

(** C2.  A call of [as_annotated], whether it returns or raises, leaves every
    array that was in the store as it was, the base raster and the overlay
    among them, and draws nothing.  The array it returns is a new one, and a
    second call with the same opacity returns an array with the same contents
    as the first. *)
Theorem as_annotated_side_effect_free `{Numpy} self alpha s :
  (∀ l0, l0 ∈ dom (heap s) →
     heap (state_of (as_annotated self alpha s)) !! l0 = heap s !! l0)
  ∧ calls (state_of (as_annotated self alpha s)) = calls s
  ∧ ∀ l s', as_annotated self alpha s = Ok l s' →
      heap s' !! data self = heap s !! data self
      ∧ heap s' !! annotation_data self = heap s !! annotation_data self
      ∧ (l ∉ dom (heap s))
      ∧ ∃ l2 s2,
          as_annotated self alpha s' = Ok l2 s2
          ∧ l2 ≠ l
          ∧ is_Some (heap s' !! l)
          ∧ heap s2 !! l2 = heap s' !! l
          ∧ heap s2 !! l = heap s' !! l
          ∧ heap s2 !! data self = heap s !! data self
          ∧ heap s2 !! annotation_data self = heap s !! annotation_data self.
Proof.
  destruct (as_annotated_frame self alpha s) as [Hfr Hcalls].
  split_and!; [done..|].
  intros l0 s' (base & ann & new & Hbase & Hann & Hc & -> & ->)%as_annotated_Ok.
  set (l := fresh (dom (heap s))).
  assert (l ∉ dom (heap s)) as Hl by apply is_fresh.
  assert (∀ l0, l0 ∈ dom (heap s) → (<[l := new]> (heap s)) !! l0 = heap s !! l0) as Hframe.
  { intros l1 Hl1. apply lookup_insert_ne. intros ->. done. }
  assert (data self ∈ dom (heap s)) as Hd by (apply elem_of_dom; eauto).
  assert (annotation_data self ∈ dom (heap s)) as Ha by (apply elem_of_dom; eauto).
  cbn [heap calls]. split_and!; [by apply Hframe|by apply Hframe|done|].
  set (s1 := State (<[l := new]> (heap s)) (calls s)).
  set (l2 := fresh (dom (heap s1))).
  assert (l2 ∉ dom (heap s1)) as Hl2 by apply is_fresh.
  assert (∀ l1, l1 ∈ dom (heap s1) → l2 ≠ l1) as Hne2.
  { intros l1 Hl1 Heq. apply Hl2. by rewrite Heq. }
  assert (∀ l1, l1 ∈ dom (heap s) → l1 ∈ dom (heap s1)) as Hmono.
  { intros l1 Hl1. apply elem_of_dom. unfold s1. cbn [heap].
    rewrite Hframe by done. by apply elem_of_dom. }
  assert (l ∈ dom (heap s1)) as Hl1.
  { apply elem_of_dom. unfold s1. cbn [heap]. rewrite lookup_insert_eq. eauto. }
  exists l2, (State (<[l2 := new]> (heap s1)) (calls s1)). split_and!.
  - apply as_annotated_Ok. exists base, ann, new. unfold s1 at 1 2. cbn [heap].
    rewrite !Hframe by done. done.
  - by apply Hne2.
  - rewrite lookup_insert_eq. eauto.
  - cbn [heap]. rewrite lookup_insert_eq. unfold s1. cbn [heap].
    by rewrite lookup_insert_eq.
  - cbn [heap]. rewrite lookup_insert_ne by (by apply Hne2). done.
  - cbn [heap]. rewrite lookup_insert_ne by (by apply Hne2, Hmono).
    unfold s1. cbn [heap]. by apply Hframe.
  - cbn [heap]. rewrite lookup_insert_ne by (by apply Hne2, Hmono).
    unfold s1. cbn [heap]. by apply Hframe.
Qed.

Lemma as_annotated_side_effect_free_witness :
  ∃ l s',
    as_annotated (np := zero_cast) img1 (f64_lit 1 2) (one_pixel [9; 8; 9] [0; 5; 0])
    = Ok l s'
    ∧ heap s' !! data img1 = Some (of_rows [[[9; 8; 9]]])
    ∧ heap s' !! annotation_data img1 = Some (of_rows [[[0; 5; 0]]])
    ∧ ∃ l2 s2, as_annotated (np := zero_cast) img1 (f64_lit 1 2) s' = Ok l2 s2
               ∧ heap s2 !! l2 = heap s' !! l.
Proof.
  destruct (one_pixel_image_in [9; 8; 9] [0; 5; 0]) as [Hb Ha Hok _ _];
    [reflexivity..|].
  destruct (as_annotated_spec (H := zero_cast) _ _ (f64_lit 1 2) _ _ Hb Ha Hok)
    as (out & Hrun & _ & _); [by apply convertible_colour|].
  destruct (as_annotated_side_effect_free (H := zero_cast) img1 (f64_lit 1 2)
              (one_pixel [9; 8; 9] [0; 5; 0]))
    as (_ & _ & Hpure).
  destruct (Hpure _ _ Hrun) as (Hd & Han & _ & l2 & s2 & Hrun2 & _ & _ & Hsame & _).
  eexists _, _. split; [exact Hrun|]. split_and!.
  - by rewrite Hd.
  - by rewrite Han.
  - by exists l2, s2.
Defined.

(** ** Reasoning about the methods *)

Section Steps.
Context (R : relation state) `{!PreOrder R}.

Lemma steps_ret {A} (a : A) : steps R (ret a).
Proof. intros s. simpl. reflexivity. Qed.

Lemma steps_lift {A} e (o : option A) : steps R (lift e o).
Proof. intros s. destruct o; simpl; reflexivity. Qed.

Lemma steps_deref l : steps R (deref l).
Proof. intros s. unfold deref. destruct (heap s !! l); simpl; reflexivity. Qed.

Lemma steps_bind {A B} (m : M A) (f : A → M B) :
  steps R m → (∀ a, steps R (f a)) → steps R (bind m f).
Proof.
  intros Hm Hf s. unfold bind. specialize (Hm s).
  destruct (m s) as [a s'|e s']; simpl in *; [|done].
  etransitivity; [exact Hm|apply Hf].
Qed.

Lemma steps_for {A} (l : list A) (body : A → M unit) :
  (∀ x, x ∈ l → steps R (body x)) → steps R (for_ l body).
Proof.
  induction l as [|x l IH]; intros Hbody; simpl.
  - apply steps_ret.
  - apply steps_bind; [apply Hbody; left|].
    intros _. apply IH. intros y Hy. apply Hbody. by right.
Qed.

Context `{Cv2}.

Lemma steps_draw buf d :
  (∀ s, R s (State (heap s) (calls s ++ [(buf, d)]))) →
  (∀ s a px, heap s !! buf = Some a →
     R s (State (<[buf := NdArray (arr_shape a) px]> (heap s)) (calls s))) →
  steps R (draw buf d).
Proof.
  intros Hlog Hd s. unfold draw, bind, deref, called, lift, store, ret, raise.
  destruct (heap s !! buf) as [a|] eqn:Ha; simpl; [|reflexivity].
  destruct (cv2_draw d (arr_shape a) (item a)) as [px|] eqn:Hpx; simpl; [|apply Hlog].
  etransitivity; [apply Hlog|]. by apply (Hd (State (heap s) (calls s ++ [(buf, d)])) a px).
Qed.

Lemma steps_draw_segments self cs color kw :
  (∀ d, call_color d = _fix_color_tuple color → steps R (draw (annotation_data self) d)) →
  steps R (_draw_segments self cs color kw).
Proof.
  intros Hd. unfold _draw_segments. apply steps_for. intros i _.
  apply steps_bind; [apply steps_lift|]. intros pt1.
  apply steps_bind; [apply steps_lift|]. intros pt2.
  by apply Hd.
Qed.

(** Every public annotation method only draws on the overlay, and only with
    colours fixed by [_fix_color_tuple]. *)
Lemma steps_annotate self op :
  (∀ d, call_color d ∈ _fix_color_tuple <$> user_colors op →
     steps R (draw (annotation_data self) d)) →
  steps R (annotate self op).
Proof.
  intros Hd. destruct op as [shape color fill kw| | | | |txt pt color bg ff fs kw]; simpl in *.
  - assert (∀ cs, steps R (_draw_segments self cs color kw)) as Hseg.
    { intros cs. apply steps_draw_segments. intros d Hc. apply Hd. rewrite Hc. left. }
    destruct shape; simpl; try apply steps_ret; try apply Hseg.
    + apply steps_bind; [|intros _; apply steps_bind; [apply Hseg|]].
      * destruct fill as [fc|]; simpl; [|apply steps_ret].
        apply Hd. simpl. right. left.
      * intros _. apply steps_for. intros ? _. apply Hseg.
    + apply steps_for. intros ? _. apply Hseg.
  - apply Hd. simpl. left.
  - apply Hd. simpl. left.
  - apply Hd. simpl. left.
  - apply Hd. simpl. left.
  - unfold annotate_text. apply steps_bind.
    + destruct bg as [bg|]; [|apply steps_ret].
      destruct (cv2_getTextSize txt ff fs 1) as [[w h] ?].
      apply Hd. simpl. right. left.
    + intros _. apply Hd. simpl. left.
Qed.

End Steps.

(** ** Colours *)


#[local] Instance drew_with_preorder buf cs : PreOrder (drew_with buf cs).
Proof.
  split.
  - intros s. exists []. by rewrite app_nil_r.
  - intros s1 s2 s3 (n1 & H1 & F1) (n2 & H2 & F2). exists (n1 ++ n2).
    split; [by rewrite H2, H1, app_assoc|]. by apply Forall_app.
Qed.

Lemma fix_color_tuple_bgr r g b :
  _fix_color_tuple (r, g, b) = (coerce_zero b, coerce_zero g, coerce_zero r).
Proof. reflexivity. Qed.

Lemma coerce_zero_nonzero v : coerce_zero v ≠ 0.
Proof. unfold coerce_zero. case_decide; lia. Qed.

Lemma fix_color_tuple_no_zero c : no_zero (_fix_color_tuple c).
Proof.
  destruct c as [[r g] b]. rewrite fix_color_tuple_bgr.
  split_and!; apply coerce_zero_nonzero.
Qed.

(** C3.  Whatever a public annotation method is given, and whether it
    returns or raises, every drawing call it makes is on the overlay of the
    image, and its colour is one of the (R,G,B) colours of the caller put in
    (B,G,R) order with every zero component replaced by 1: no colour that
    OpenCV receives has a zero component. *)
Theorem annotations_draw_fixed_colors `{Cv2} (self : Image) (op : annotation) (s : state) :
  ∃ new,
    calls (state_of (annotate self op s)) = calls s ++ new
    ∧ Forall (λ c : loc * draw_call,
        c.1 = annotation_data self
        ∧ (∃ r g b, (r, g, b) ∈ user_colors op
             ∧ call_color c.2 = (coerce_zero b, coerce_zero g, coerce_zero r))
        ∧ no_zero (call_color c.2)) new.
Proof.
  destruct (steps_annotate
              (drew_with (annotation_data self) (_fix_color_tuple <$> user_colors op))
              self op) with (s := s) as (new & Hcalls & Hnew).
  - intros d Hd. apply steps_draw; [apply _| |].
    + intros s0. exists [(annotation_data self, d)]. split; [done|].
      by repeat constructor.
    + intros s0 a px _. exists []. split; [by rewrite app_nil_r|constructor].
  - exists new. split; [done|]. eapply Forall_impl; [exact Hnew|].
    intros [buf d] [Hbuf Hcol]. simpl in *. split; [done|].
    apply list_elem_of_fmap in Hcol as ([[r g] b] & Hc & Hin). split.
    + exists r, g, b. by rewrite Hc.
    + rewrite Hc. apply fix_color_tuple_no_zero.
Qed.

(** The zero components of pure green: what OpenCV receives is (1,255,1). *)
Example annotate_line_green :
  calls (state_of (annotate (H := raster_cv2 (λ _, None)) img1
                     (Annotate_line (0, 0) (0, 0) (0, 255, 0) no_kwargs)
                     (one_pixel [9; 8; 9] [0; 0; 0])))
  = [(2%positive, cv2_line (0, 0) (0, 0) (1, 255, 1) no_kwargs)].
Proof. reflexivity. Qed.

(** ** The drawing calls of a shape *)

Lemma bind_ext {A B} (m m' : M A) (f f' : A → M B) s :
  m s = m' s → (∀ a s', f a s' = f' a s') → bind m f s = bind m' f' s.
Proof. intros Hm Hf. unfold bind. rewrite Hm. destruct (m' s); [apply Hf|done]. Qed.

Lemma for_ext {A} (l : list A) (f g : A → M unit) s :
  (∀ x s', f x s' = g x s') → for_ l f s = for_ l g s.
Proof.
  intros Hfg. revert s. induction l as [|x l IH]; intros s; simpl; [done|].
  apply bind_ext; [apply Hfg|]. intros _ s'. apply IH.
Qed.

Lemma for_app {A} (l1 l2 : list A) (f : A → M unit) s :
  for_ (l1 ++ l2) f s = bind (for_ l1 f) (λ _, for_ l2 f) s.
Proof.
  revert s. induction l1 as [|x l1 IH]; intros s; simpl; [done|].
  unfold bind at 1 2 3. destruct (f x s) as [[] s'|e s']; [|done]. apply IH.
Qed.

Lemma for_fmap {A B} (g : A → B) (l : list A) (f : B → M unit) s :
  for_ (g <$> l) f s = for_ l (λ x, f (g x)) s.
Proof.
  revert s. induction l as [|x l IH]; intros s; simpl; [done|].
  apply bind_ext; [done|]. intros _ s'. apply IH.
Qed.

Lemma for_concat {A B} (g : A → list B) (l : list A) (f : B → M unit) s :
  for_ (concat (g <$> l)) f s = for_ l (λ x, for_ (g x) f) s.
Proof.
  revert s. induction l as [|x l IH]; intros s; simpl; [done|].
  rewrite for_app. apply bind_ext; [done|]. intros _ s'. apply IH.
Qed.

(** The loop over the indices 1 .. len-1 visits the consecutive pairs. *)
Lemma for_index_segments {A} (k : A → A → M unit) (l : list A) rest : ∀ pre p s,
  l = pre ++ p :: rest →
  for_ (seq (S (length pre)) (length rest))
       (λ i, pt1 <~ index l (i - 1) ;; pt2 <~ index l i ;; k pt1 pt2) s
  = for_ (segments (p :: rest)) (λ pq, k pq.1 pq.2) s.
Proof.
  unfold bind, index. induction rest as [|q rest IH]; intros pre p s Hl; [done|].
  change (segments (p :: q :: rest)) with ((p, q) :: segments (q :: rest)).
  cbn [length seq for_]. unfold bind.
  assert (l !! length pre = Some p) as Hp by (rewrite Hl; apply list_lookup_middle; done).
  assert (l !! S (length pre) = Some q) as Hq.
  { rewrite Hl, (cons_middle p), app_assoc.
    apply list_lookup_middle. rewrite length_app. simpl. lia. }
  replace (S (length pre) - 1)%nat with (length pre) by lia.
  rewrite Hp, Hq. cbn [lift ret fst snd].
  destruct (k p q s) as [[] s'|e s']; [|done].
  specialize (IH (pre ++ [p]) q s'). rewrite length_app in IH. simpl in IH.
  replace (length pre + 1)%nat with (S (length pre)) in IH by lia.
  apply IH. by rewrite <-app_assoc.
Qed.

Section Shapes.
Context `{Cv2}.

Lemma draw_segments_calls self cs color kw s :
  _draw_segments self cs color kw s
  = for_ (stroke_calls cs color kw) (draw (annotation_data self)) s.
Proof.
  unfold _draw_segments, stroke_calls, np_array_int. rewrite for_fmap.
  destruct ((λ xy : Q * Q, (int xy.1, int xy.2)) <$> cs) as [|p rest] eqn:Hpts; [done|].
  cbn [length]. replace (S (length rest) - 1)%nat with (length rest) by lia.
  by rewrite (for_index_segments
                (λ pt1 pt2, annotate_line self pt1 pt2 color kw) (p :: rest) rest [] p s).
Qed.


End Shapes.

(** ** Polygons with holes *)



Section Polygon.
Context `{Cv2}.





End Polygon.


Example annotate_polygon_filled_between :
  ∃ a', heap (state_of (annotate_shape (H := raster_cv2 (λ _, None)) img7
                          (Polygon square [hole]) (0, 0, 0) (Some (255, 255, 255))
                          no_kwargs (blank 7 7)))
          !! annotation_data img7 = Some a'
        ∧ item a' 1 1 0 = 255 ∧ item a' 3 3 0 = 0 ∧ item a' 2 3 0 = 1.
Proof. eexists. split; [reflexivity|]. vm_compute. done. Qed.

(** ** Shapes that draw nothing *)

(** C6.  For a shape that is not a line string, a ring, a multi-line string
    or a polygon, [annotate_shape] returns normally and leaves the state, the
    overlay in it, as it was: no drawing call is made and nothing is raised. *)
Theorem annotate_shape_unsupported `{Cv2} self shape color fill_color kw s :
  supported shape = false →
  annotate_shape self shape color fill_color kw s = Ok tt s.
Proof. by destruct shape. Qed.

Lemma annotate_shape_unsupported_witness :
  annotate_shape (H := raster_cv2 (λ _, None)) img7 (Point (3, 3)%Q) (255, 0, 0) None
    no_kwargs (blank 7 7)
  = Ok tt (blank 7 7).
Proof.
  apply (annotate_shape_unsupported (H := raster_cv2 (λ _, None))). reflexivity.
Defined.

(** C7.  For a line string or a ring without coordinates, [annotate_shape]
    returns normally and leaves the state as it was: the loop over the
    segments has no iteration, so no line is drawn and nothing is raised.
    The same holds for the helper itself, and for a single coordinate. *)
Theorem annotate_shape_empty_coords `{Cv2} self color fill_color kw s :
  annotate_shape self (LineString []) color fill_color kw s = Ok tt s
  ∧ annotate_shape self (LinearRing []) color fill_color kw s = Ok tt s
  ∧ _draw_segments self [] color kw s = Ok tt s
  ∧ ∀ xy, _draw_segments self [xy] color kw s = Ok tt s.
Proof. by split_and!. Qed.

(** ** Points *)

(** C10.  [annotate_point(point, color)] is [annotate_circle(point, 3, color,
    thickness=-1)]: from every state both give the same result and the same
    state, which is that of drawing one filled circle of radius 3 at the
    (truncated) point on the overlay. *)
Theorem annotate_point_is_circle `{Cv2} self point color s :
  annotate_point self point color s
  = annotate_circle self point 3 color (Kwargs (Some (-1)) None None) s
  ∧ annotate_point self point color s = filled_circle_of_radius_3 self point color s
  ∧ (∀ s', annotate_point self point color s = Ok tt s' →
       calls s' = calls s ++ [(annotation_data self,
                               cv2_circle (int point.1, int point.2) 3
                                 (_fix_color_tuple color) (Kwargs (Some (-1)) None None))]
       ∧ ∀ l, l ≠ annotation_data self → heap s' !! l = heap s !! l).
Proof.
  split_and!; [done..|]. intros s'.
  unfold annotate_point, annotate_circle, draw, bind, deref, called, lift, store, ret, raise.
  destruct (heap s !! annotation_data self) as [a|]; [|done]. cbn [heap calls].
  destruct (cv2_draw _ _ _) as [px|]; [|done]. simpl.
  intros [= <-]. split; [done|]. intros l Hl. simpl. by rewrite lookup_insert_ne.
Qed.

Example annotate_point_example :
  calls (state_of (annotate_point (H := raster_cv2 (λ _, None)) img7 (3 # 1, 7 # 2)%Q
                     (255, 0, 0) (blank 7 7)))
  = [(2%positive, cv2_circle (3, 3) 3 (1, 1, 255) (Kwargs (Some (-1)) None None))].
Proof. reflexivity. Qed.

Lemma annotate_point_is_circle_witness :
  calls (state_of (annotate_point (H := raster_cv2 (λ _, None)) img7 (3 # 1, 7 # 2)%Q
                     (255, 0, 0) (blank 7 7)))
  = [(2%positive, cv2_circle (3, 3) 3 (1, 1, 255) (Kwargs (Some (-1)) None None))].
Proof.
  destruct (annotate_point_is_circle (H := raster_cv2 (λ _, None)) img7 (3 # 1, 7 # 2)%Q
              (255, 0, 0) (blank 7 7)) as (_ & _ & Hcalls).
  destruct (Hcalls (state_of (annotate_point (H := raster_cv2 (λ _, None)) img7
                               (3 # 1, 7 # 2)%Q (255, 0, 0) (blank 7 7))) eq_refl)
    as [Hc _].
  exact Hc.
Defined.

(** ** The constructor and the two buffers *)

#[local] Instance same_shapes_preorder : PreOrder same_shapes.
Proof.
  split.
  - intros s l a Ha. eauto.
  - intros s1 s2 s3 H12 H23 l a Ha.
    destruct (H12 l a Ha) as (a2 & Ha2 & Hs2).
    destruct (H23 l a2 Ha2) as (a3 & Ha3 & Hs3).
    exists a3. split; [done|congruence].
Qed.

Section Constructor.
Context `{Cv2}.

Lemma annotate_same_shapes self op s :
  same_shapes s (state_of (annotate self op s)).
Proof.
  apply (steps_annotate same_shapes). intros d _. apply steps_draw; [apply _| |].
  { intros s0 l a0 Hl. eauto. }
  intros s0 a px Ha l a0 Hl. cbn [heap].
  destruct (decide (l = annotation_data self)) as [->|Hne].
  - rewrite lookup_insert_eq. eexists. split; [done|]. simpl. congruence.
  - rewrite lookup_insert_ne by done. eauto.
Qed.

(** What a successful construction gives. *)
Lemma init_Ok src args d s self s' :
  __init__ src args d s = Ok self s' →
  ∃ base,
    heap s' !! data self = Some base
    ∧ heap s' !! annotation_data self = Some (np_zeros (height self) (width self) 3)
    ∧ shape_0_2 (arr_shape base) = (height self, width self)
    ∧ (∀ l, l ∈ dom (heap s) → heap s' !! l = heap s !! l)
    ∧ (annotation_data self ∉ dom (heap s))
    ∧ annotation_data self ≠ data self
    ∧ calls s' = calls s
    ∧ match src with
      | from_ndarray a => data self = a ∧ heap s !! a = Some base
      | from_path p => (data self ∉ dom (heap s)) ∧ cv2_imread p args = Some base
      | from_file buf => (data self ∉ dom (heap s)) ∧ cv2_imdecode buf = Some base
      end.
Proof.
  assert (∀ (h : gmap loc ndarray) l, l ∈ dom h → l ≠ fresh (dom h)) as Hfresh.
  { intros h l Hl ->. by apply (is_fresh (dom h)). }
  assert (∀ (s0 : state) l0 base,
    heap s0 !! l0 = Some base →
    (a <~ deref l0 ;;
     let '(height, width) := shape_0_2 (arr_shape a) in
     let nchannels := match arr_shape a with Shape3 _ _ c => c | Shape2 _ _ => 1%nat end in
     annotation_data <~ alloc (np_zeros height width 3) ;;
     ret {| desc := d; data := l0; height := height; width := width;
            nchannels := nchannels; annotation_data := annotation_data |}) s0
    = Ok self s' →
    data self = l0
    ∧ heap s' = <[annotation_data self := np_zeros (height self) (width self) 3]> (heap s0)
    ∧ annotation_data self = fresh (dom (heap s0))
    ∧ shape_0_2 (arr_shape base) = (height self, width self)
    ∧ calls s' = calls s0) as Hrest.
  { intros s0 l0 base Hl0. unfold bind, deref, alloc, ret. rewrite Hl0.
    destruct (shape_0_2 (arr_shape base)) as [h w]. by intros [= <- <-]. }
  unfold __init__. unfold bind at 1.
  destruct src as [a|p|buf].
  - unfold ret at 1. intros Hrun.
    assert (∃ base, heap s !! a = Some base) as [base Ha].
    { revert Hrun. unfold bind, deref. destruct (heap s !! a); [eauto|done]. }
    destruct (Hrest s a base Ha Hrun) as (Hd & Hh & Hann & Hsh & Hc).
    assert (a ∈ dom (heap s)) as Hin by (apply elem_of_dom; eauto).
    exists base. rewrite Hh, Hd, Hann.
    split_and!;
      [|by rewrite lookup_insert_eq|done| |apply is_fresh
       |by apply not_eq_sym, Hfresh|done|done|done].
    + by rewrite lookup_insert_ne by (by apply not_eq_sym, Hfresh).
    + intros l Hl. by rewrite lookup_insert_ne by (by apply not_eq_sym, Hfresh).
  - unfold bind at 1, lift, alloc.
    destruct (cv2_imread p args) as [base|] eqn:Hread; [|done]. cbn [ret].
    set (l1 := fresh (dom (heap s))). intros Hrun.
    destruct (Hrest (State (<[l1 := base]> (heap s)) (calls s)) l1 base)
      as (Hd & Hh & Hann & Hsh & Hc); [apply lookup_insert_eq|exact Hrun|].
    cbn [heap calls] in *.
    assert (annotation_data self ≠ l1) as Hne.
    { rewrite Hann. apply not_eq_sym, Hfresh. apply elem_of_dom.
      rewrite lookup_insert_eq. eauto. }
    assert (∀ l, l ∈ dom (heap s) → l ≠ annotation_data self) as Hold.
    { intros l Hl. rewrite Hann. apply Hfresh. apply elem_of_dom.
      rewrite lookup_insert_ne by (by apply not_eq_sym, Hfresh).
      by apply elem_of_dom. }
    exists base. rewrite Hh, Hd.
    split_and!; [|by rewrite lookup_insert_eq|done| | |done|done|apply is_fresh|done].
    + rewrite lookup_insert_ne by done. apply lookup_insert_eq.
    + intros l Hl. rewrite lookup_insert_ne by (by apply not_eq_sym, Hold).
      by rewrite lookup_insert_ne by (by apply not_eq_sym, Hfresh).
    + intros Hin. by apply (Hold _ Hin).
  - unfold bind at 1, lift, alloc.
    destruct (decide (buf = [])) as [?|Hbuf]; [done|].
    destruct (cv2_imdecode buf) as [base|] eqn:Hread; [|done]. cbn [ret].
    set (l1 := fresh (dom (heap s))). intros Hrun.
    destruct (Hrest (State (<[l1 := base]> (heap s)) (calls s)) l1 base)
      as (Hd & Hh & Hann & Hsh & Hc); [apply lookup_insert_eq|exact Hrun|].
    cbn [heap calls] in *.
    assert (annotation_data self ≠ l1) as Hne.
    { rewrite Hann. apply not_eq_sym, Hfresh. apply elem_of_dom.
      rewrite lookup_insert_eq. eauto. }
    assert (∀ l, l ∈ dom (heap s) → l ≠ annotation_data self) as Hold.
    { intros l Hl. rewrite Hann. apply Hfresh. apply elem_of_dom.
      rewrite lookup_insert_ne by (by apply not_eq_sym, Hfresh).
      by apply elem_of_dom. }
    exists base. rewrite Hh, Hd.
    split_and!; [|by rewrite lookup_insert_eq|done| | |done|done|apply is_fresh|done].
    + rewrite lookup_insert_ne by done. apply lookup_insert_eq.
    + intros l Hl. rewrite lookup_insert_ne by (by apply not_eq_sym, Hold).
      by rewrite lookup_insert_ne by (by apply not_eq_sym, Hfresh).
    + intros Hin. by apply (Hold _ Hin).
Qed.

End Constructor.

Section Buffers.
Context `{Cv2}.

(** C8.  The constructor makes the overlay a zero-filled height x width x 3
    array, where height and width are the first two dimensions of the base
    raster.  Whatever annotation methods are then called, on this image or on
    others, the base raster and the overlay keep their shapes: the overlay
    still has the first two dimensions of the base raster. *)
Theorem overlay_dimensions src args d s self s' (ops : list (Image * annotation)) :
  __init__ src args d s = Ok self s' →
  ∃ base,
    heap s' !! data self = Some base
    ∧ heap s' !! annotation_data self = Some (np_zeros (height self) (width self) 3)
    ∧ shape_0_2 (arr_shape base) = (height self, width self)
    ∧ (∀ i j k, item (np_zeros (height self) (width self) 3) i j k = 0)
    ∧ ∃ base' ann',
        let s'' := state_of (for_ ops (λ io, annotate io.1 io.2) s') in
        heap s'' !! data self = Some base'
        ∧ heap s'' !! annotation_data self = Some ann'
        ∧ arr_shape base' = arr_shape base
        ∧ arr_shape ann' = Shape3 (height self) (width self) 3
        ∧ shape_0_2 (arr_shape ann') = shape_0_2 (arr_shape base').
Proof.
  intros (base & Hbase & Hann & Hsh & _)%init_Ok.
  exists base. split_and!; [done..|].
  assert (same_shapes s' (state_of (for_ ops (λ io, annotate io.1 io.2) s'))) as Hsame.
  { apply (steps_for same_shapes). intros [img op] _ s0. apply annotate_same_shapes. }
  destruct (Hsame _ _ Hbase) as (base' & Hbase' & Hshb).
  destruct (Hsame _ _ Hann) as (ann' & Hann' & Hsha).
  exists base', ann'. cbn zeta. split_and!; [done..|].
  rewrite Hsha, Hshb, Hsh. done.
Qed.

(** C9 (amended).  The constructor allocates the overlay: it is a new array,
    different from every array that existed before and from the base raster,
    and no array that existed before is changed.  The base raster is a new
    array when the image is built from a path or a file object; built from an
    array, the image keeps that very array as its base raster.  An image
    built later has an overlay of its own, and shares no buffer with the
    earlier image unless it is built from an array. *)
Theorem constructor_buffers src args d s self s' :
  __init__ src args d s = Ok self s' →
  (annotation_data self ∉ dom (heap s))
  ∧ annotation_data self ≠ data self
  ∧ (∀ l, l ∈ dom (heap s) → heap s' !! l = heap s !! l)
  ∧ match src with
    | from_ndarray a => data self = a
    | _ => data self ∉ dom (heap s)
    end
  ∧ ∀ src2 args2 d2 self2 s2,
      __init__ src2 args2 d2 s' = Ok self2 s2 →
      annotation_data self2 ≠ annotation_data self
      ∧ annotation_data self2 ≠ data self
      ∧ ((∀ a, src2 ≠ from_ndarray a) → share_no_buffer self self2).
Proof.
  intros (base & Hbase & Hann & _ & Hframe & Hfresh & Hne & _ & Hsrc)%init_Ok.
  split_and!; [done..|by destruct src as [a|p|buf]; destruct Hsrc|].
  intros src2 args2 d2 self2 s2
    (base2 & _ & _ & _ & _ & Hfresh2 & Hne2 & _ & Hsrc2)%init_Ok.
  assert (data self ∈ dom (heap s')) as Hd by (apply elem_of_dom; eauto).
  assert (annotation_data self ∈ dom (heap s')) as Ha by (apply elem_of_dom; eauto).
  split_and!.
  - intros Heq. by rewrite Heq in Hfresh2.
  - intros Heq. by rewrite Heq in Hfresh2.
  - intros Hnot. assert (data self2 ∉ dom (heap s')) as Hd2.
    { destruct src2 as [a|p|buf]; [by destruct (Hnot a)|by destruct Hsrc2..]. }
    unfold share_no_buffer. split_and!; intros Heq.
    + by rewrite <-Heq in Hd2.
    + by rewrite <-Heq in Hfresh2.
    + by rewrite <-Heq in Hd2.
    + by rewrite <-Heq in Hfresh2.
Qed.

End Buffers.

Lemma init_gray2 :
  __init__ (H := raster_cv2 (λ _, None)) (from_ndarray 1%positive) None "a" gray2
  = Ok img_gray2
       (State (<[2%positive := np_zeros 2 2 3]> (heap gray2)) []).
Proof. reflexivity. Qed.

Lemma overlay_dimensions_witness :
  ∃ base' ann',
    let s'' := state_of (for_ [(img_gray2, Annotate_point (1, 1)%Q (0, 255, 0));
                               (img_gray2, Annotate_line (0, 0) (1, 1) (255, 0, 0) no_kwargs)]
                              (λ io, annotate (H := raster_cv2 (λ _, None)) io.1 io.2)
                              (State (<[2%positive := np_zeros 2 2 3]> (heap gray2)) [])) in
    heap s'' !! data img_gray2 = Some base'
    ∧ heap s'' !! annotation_data img_gray2 = Some ann'
    ∧ arr_shape base' = Shape2 2 2
    ∧ arr_shape ann' = Shape3 2 2 3.
Proof.
  destruct (overlay_dimensions (H := raster_cv2 (λ _, None)) _ _ _ _ _ _
              [(img_gray2, Annotate_point (1, 1)%Q (0, 255, 0));
               (img_gray2, Annotate_line (0, 0) (1, 1) (255, 0, 0) no_kwargs)] init_gray2)
    as (base & Hbase & _ & _ & _ & base' & ann' & Hb' & Ha' & Hsb & Hsa & _).
  exists base', ann'. cbn zeta in *. split_and!; [done|done| |done].
  rewrite Hsb. cbn [heap data img_gray2] in Hbase.
  rewrite lookup_insert_ne in Hbase by done.
  unfold gray2 in Hbase. cbn [heap] in Hbase. rewrite lookup_singleton_eq in Hbase.
  by injection Hbase as <-.
Defined.

(** C9, as stated, fails: two images built from the same array have the same
    base buffer, and when the caller then writes into the array, the base
    pixel of the image changes from 5 to 0. *)
Lemma shared_base_counterexample :
  ∃ a b s1 s2 s3 before after,
    __init__ (H := raster_cv2 (λ _, None)) (from_ndarray 1%positive) None "a" gray2 = Ok a s1
    ∧ __init__ (H := raster_cv2 (λ _, None)) (from_ndarray 1%positive) None "b" s1 = Ok b s2
    ∧ data a = data b
    ∧ ¬ share_no_buffer a b
    ∧ setitem_at 1%positive (0, 0, 0)%nat 0 s2 = Ok tt s3
    ∧ heap s2 !! data a = Some before ∧ item before 0 0 0 = 5
    ∧ heap s3 !! data a = Some after ∧ item after 0 0 0 = 0.
Proof.
  set (cv := raster_cv2 (λ _, None)).
  set (s1 := state_of (__init__ (H := cv) (from_ndarray 1%positive) None "a" gray2)).
  set (b := {| desc := "b"; data := 1%positive; height := 2; width := 2;
               nchannels := 1; annotation_data := 3%positive |}).
  set (s2 := state_of (__init__ (H := cv) (from_ndarray 1%positive) None "b" s1)).
  set (s3 := state_of (setitem_at 1%positive (0, 0, 0)%nat 0 s2)).
  exists img_gray2, b, s1, s2, s3, (of_gray_rows [[5; 6]; [7; 8]]),
    (default (np_zeros 0 0 0) (heap s3 !! 1%positive)).
  split; [reflexivity|]. split; [reflexivity|]. split; [reflexivity|].
  split; [intros (Hd & _); by apply Hd|].
  split; [reflexivity|]. split; [reflexivity|]. split; [reflexivity|].
  split; reflexivity.
Qed.

Lemma constructor_buffers_witness :
  (annotation_data img_gray2 ∉ dom (heap gray2)) ∧ data img_gray2 = 1%positive.
Proof.
  destruct (constructor_buffers (H := raster_cv2 (λ _, None)) _ _ _ _ _ _ init_gray2)
    as (Hfresh & _ & _ & Hd & _).
  split; [exact Hfresh|exact Hd].
Defined.

(** ** Strokes *)

Lemma segments_length {A} (l : list A) : length (segments l) = (length l - 1)%nat.
Proof.
  induction l as [|x [|y l] IH]; [done..|].
  change (segments (x :: y :: l)) with ((x, y) :: segments (y :: l)).
  cbn [length] in *. lia.
Qed.

Lemma segments_lookup {A} (l : list A) i x y :
  l !! i = Some x → l !! S i = Some y → segments l !! i = Some (x, y).
Proof.
  revert i. induction l as [|a [|b l] IH]; intros i Hx Hy; [done..|].
  change (segments (a :: b :: l)) with ((a, b) :: segments (b :: l)).
  destruct i as [|i]; simpl in *; [congruence|]. by apply IH.
Qed.

Section Strokes.
Context `{Cv2}.

(** When all the calls are accepted, the log grows by exactly these calls. *)
Lemma for_draw_calls buf ds : ∀ s s',
  for_ ds (draw buf) s = Ok tt s' →
  calls s' = calls s ++ ((λ d, (buf, d)) <$> ds).
Proof.
  induction ds as [|d ds IH]; intros s s' Hrun.
  - injection Hrun as <-. by rewrite app_nil_r.
  - cbn [for_] in Hrun. unfold bind at 1 in Hrun.
    destruct (draw buf d s) as [[] s1|e s1] eqn:Hd; [|done].
    apply IH in Hrun. rewrite Hrun.
    assert (calls s1 = calls s ++ [(buf, d)]) as ->.
    { revert Hd. unfold draw, bind, deref, called, lift, store, ret, raise.
      destruct (heap s !! buf) as [a|]; [|done]. cbn [heap calls].
      destruct (cv2_draw _ _ _); [|done]. by intros [= <-]. }
    by rewrite <-app_assoc.
Qed.

(** X1.  For a line string or a ring of n coordinates, [annotate_shape]
    draws the n-1 lines between consecutive coordinates, truncated to
    integers, in order and in the fixed colour, and nothing else: a ring is
    not closed by a line from its last coordinate to its first.  A multi-line
    string is drawn component by component, with no line from one component
    to the next. *)
Theorem line_string_strokes self (cs : list (Q * Q)) lines color fill_color kw s :
  annotate_shape self (LineString cs) color fill_color kw s
  = for_ (stroke_calls cs color kw) (draw (annotation_data self)) s
  ∧ annotate_shape self (LinearRing cs) color fill_color kw s
    = for_ (stroke_calls cs color kw) (draw (annotation_data self)) s
  ∧ annotate_shape self (MultiLineString lines) color fill_color kw s
    = for_ (concat ((λ line, stroke_calls line color kw) <$> lines))
           (draw (annotation_data self)) s
  ∧ length (stroke_calls cs color kw) = (length cs - 1)%nat
  ∧ (∀ i p q, cs !! i = Some p → cs !! S i = Some q →
       stroke_calls cs color kw !! i
       = Some (cv2_line (int p.1, int p.2) (int q.1, int q.2)
                 (_fix_color_tuple color) kw))
  ∧ ∀ s', annotate_shape self (LineString cs) color fill_color kw s = Ok tt s' →
      calls s' = calls s
                 ++ ((λ d, (annotation_data self, d)) <$> stroke_calls cs color kw).
Proof.
  split_and!.
  - apply draw_segments_calls.
  - apply draw_segments_calls.
  - cbn [annotate_shape]. rewrite for_concat. apply for_ext. intros line s1.
    apply draw_segments_calls.
  - unfold stroke_calls, np_array_int. by rewrite length_fmap, segments_length, length_fmap.
  - intros i p q Hp Hq. unfold stroke_calls.
    assert (np_array_int cs !! i = Some (int p.1, int p.2)) as Hp'.
    { unfold np_array_int. by rewrite list_lookup_fmap, Hp. }
    assert (np_array_int cs !! S i = Some (int q.1, int q.2)) as Hq'.
    { unfold np_array_int. by rewrite list_lookup_fmap, Hq. }
    pose proof (segments_lookup (np_array_int cs) i _ _ Hp' Hq') as Hs.
    rewrite list_lookup_fmap. unfold point_t in *. by rewrite Hs.
  - intros s' Hrun. cbn [annotate_shape] in Hrun. rewrite draw_segments_calls in Hrun.
    by apply for_draw_calls.
Qed.

End Strokes.

Lemma line_string_strokes_witness :
  calls (state_of (annotate_shape (H := raster_cv2 (λ _, None)) img7
                     (LinearRing [(1, 1); (5, 1); (5, 5)]%Q) (0, 255, 0) None
                     no_kwargs (blank 7 7)))
  = [(2%positive, cv2_line (1, 1) (5, 1) (1, 255, 1) no_kwargs);
     (2%positive, cv2_line (5, 1) (5, 5) (1, 255, 1) no_kwargs)].
Proof.
  destruct (line_string_strokes (H := raster_cv2 (λ _, None)) img7
              [(1, 1); (5, 1); (5, 5)]%Q [] (0, 255, 0) None no_kwargs (blank 7 7))
    as (_ & _ & _ & _ & _ & Hcalls).
  exact (Hcalls (state_of (annotate_shape (H := raster_cv2 (λ _, None)) img7
                   (LineString [(1, 1); (5, 1); (5, 5)]%Q) (0, 255, 0) None
                   no_kwargs (blank 7 7))) eq_refl).
Defined.

(** ** What an annotation leaves alone *)

#[local] Instance only_overlay_preorder buf : PreOrder (only_overlay buf).
Proof.
  split.
  - intros s. by split.
  - intros s1 s2 s3 [H12 D12] [H23 D23]. split; [|congruence].
    intros l Hl. by rewrite H23, H12.
Qed.

(** X2.  An annotation method, whether it returns or raises, changes no
    array but the overlay of its image, and creates none: when the base raster
    is another array than the overlay, as the constructor makes it, the base
    pixels are never drawn on. *)
Theorem annotate_only_overlay `{Cv2} self op s :
  (∀ l, l ≠ annotation_data self →
     heap (state_of (annotate self op s)) !! l = heap s !! l)
  ∧ dom (heap (state_of (annotate self op s))) = dom (heap s)
  ∧ (data self ≠ annotation_data self →
     heap (state_of (annotate self op s)) !! data self = heap s !! data self).
Proof.
  assert (only_overlay (annotation_data self) s (state_of (annotate self op s)))
    as [Hframe Hdom].
  { apply (steps_annotate (only_overlay (annotation_data self))).
    intros d _. apply steps_draw; [apply _| |].
    - intros s0. by split.
    - intros s0 a px Ha. split; cbn [heap].
      + intros l Hl. by rewrite lookup_insert_ne.
      + rewrite dom_insert_L. apply subseteq_union_1_L, singleton_subseteq_l.
        by apply elem_of_dom_2 in Ha. }
  split_and!; [done|done|intros Hne; by apply Hframe].
Qed.

Lemma annotate_only_overlay_witness :
  heap (state_of (annotate (H := raster_cv2 (λ _, None)) img7
                    (Annotate_rect (1, 1) (4, 4) (255, 0, 0) no_kwargs) (blank 7 7)))
    !! data img7
  = Some (np_zeros 7 7 3).
Proof.
  destruct (annotate_only_overlay (H := raster_cv2 (λ _, None)) img7
              (Annotate_rect (1, 1) (4, 4) (255, 0, 0) no_kwargs) (blank 7 7))
    as (_ & _ & Hbase).
  rewrite Hbase; [reflexivity|discriminate].
Defined.

(** ** Compositing at the edges *)





(** X4.  A base raster of two channels can be annotated but not composited:
    as soon as the overlay has a non-zero element in its third channel,
    [as_annotated] raises IndexError, and no array that was in the store is
    changed. *)
Theorem as_annotated_two_channels `{Numpy} self alpha s base ann h w i j :
  heap s !! data self = Some base →
  heap s !! annotation_data self = Some ann →
  nchannels self = 2%nat →
  arr_shape base = Shape3 h w 2 →
  arr_shape ann = Shape3 h w 3 →
  (i < h)%nat → (j < w)%nat → item ann i j 2 ≠ 0 →
  ∃ s', as_annotated self alpha s = Raise IndexError s'
    ∧ (∀ l, l ∈ dom (heap s) → heap s' !! l = heap s !! l)
    ∧ calls s' = calls s.
Proof.
  intros Hbase Hann Hnch Hsb Hsa Hi Hj Hnz.
  destruct (as_annotated_frame self alpha s) as [Hframe Hcalls].
  assert (∃ s', as_annotated self alpha s = Raise IndexError s') as [s' Hrun].
  { unfold as_annotated, bind, deref, nonzero, lift, alloc, store, ret, raise.
    rewrite Hann, Hsa, Hbase. cbn [heap calls].
    rewrite decide_False by lia. cbn [heap calls].
    rewrite getitems_in_bounds.
    2:{ apply Forall_forall. intros [[i' j'] k'] [Hin _]%elem_of_nonzero3.
        rewrite Hsa. by apply in_bounds_Shape3. }
    cbn [heap calls]. rewrite lookup_insert_eq.
    assert (getitems (copy base) (nonzero3 h w 3 (item ann)) = None) as ->; [|eauto].
    apply mapM_None_2, Exists_exists. exists (i, j, 2%nat). split.
    - apply elem_of_nonzero3. split; [lia|done].
    - unfold getitem, copy. cbn [arr_shape]. rewrite Hsb.
      destruct (in_bounds (Shape3 h w 2) (i, j, 2%nat)) eqn:Hb; [|done].
      apply in_bounds_Shape3 in Hb. lia. }
  exists s'. rewrite Hrun in Hframe, Hcalls. by split_and!.
Qed.

Lemma as_annotated_two_channels_witness :
  ∃ s', as_annotated (np := zero_cast)
          {| desc := "flow"; data := 1%positive; height := 1; width := 1;
             nchannels := 2; annotation_data := 2%positive |} (f64_lit 1 2)
          (State (<[2%positive := of_rows [[[1; 1; 255]]]]>
                    (<[1%positive := of_rows [[[9; 8]]]]> ∅)) [])
        = Raise IndexError s'.
Proof.
  destruct (as_annotated_two_channels (H := zero_cast)
              {| desc := "flow"; data := 1%positive; height := 1; width := 1;
                 nchannels := 2; annotation_data := 2%positive |} (f64_lit 1 2)
              (State (<[2%positive := of_rows [[[1; 1; 255]]]]>
                        (<[1%positive := of_rows [[[9; 8]]]]> ∅)) [])
              (of_rows [[[9; 8]]]) (of_rows [[[1; 1; 255]]]) 1 1 0 0)
    as (s' & Hrun & _); [reflexivity..|lia|lia|vm_compute; discriminate|].
  by exists s'.
Defined.

(** ** Display and saving *)

Lemma unchanged_insert s0 h c l a :
  unchanged_from s0 (State h c) → l ∉ dom (heap s0) →
  unchanged_from s0 (State (<[l := a]> h) c).
Proof.
  intros [Hh Hc] Hl. split; [|done]. intros l0 Hl0. cbn [heap] in *.
  rewrite lookup_insert_ne; [by apply Hh|]. intros ->. done.
Qed.

Lemma unchanged_refl s : unchanged_from s s.
Proof. by split. Qed.

Section Display.
Context `{Gui} `{Numpy}.

(** The array that [show] is to display: either the composite or a copy of
    the base raster, in both cases a new array. *)
Lemma show_array_new self (annotations : bool) alpha s :
  match (if annotations then as_annotated self alpha
         else a <~ deref (data self) ;; alloc (copy a)) s with
  | Ok l s1 => ∃ a, l = fresh (dom (heap s)) ∧ s1 = State (<[l := a]> (heap s)) (calls s)
  | Raise _ s1 => unchanged_from s s1
  end.
Proof.
  destruct annotations.
  - destruct (as_annotated self alpha s) as [l s1|e s1] eqn:Hrun.
    + apply as_annotated_Ok in Hrun as (base & ann & new & _ & _ & _ & -> & ->). eauto.
    + pose proof (as_annotated_frame self alpha s) as Hfr. by rewrite Hrun in Hfr.
  - unfold bind, deref, alloc. destruct (heap s !! data self) as [a|]; [eauto|].
    apply unchanged_refl.
Qed.

(** X5.  [show] and [save], in every mode and whether they return or raise,
    change no array that was in the store and draw nothing: the image is
    displayed and saved from a new array (or, for [save] without annotations,
    read in place), and the exchange of the channels for matplotlib is done on
    that new array. *)
Theorem show_save_leave_image self window_title highgui annotations alpha delay pos
    filename as_annotated_flag args s :
  unchanged_from s (state_of (show self window_title highgui annotations alpha delay pos s))
  ∧ unchanged_from s (state_of (save self filename as_annotated_flag args s)).
Proof.
  split.
  - unfold show. unfold bind at 1.
    pose proof (show_array_new self annotations alpha s) as Hnew.
    destruct ((if annotations then as_annotated self alpha
               else a <~ deref (data self) ;; alloc (copy a)) s) as [l s1|e s1]; [|done].
    destruct Hnew as (a & -> & ->).
    assert (∀ h, unchanged_from s (State h (calls s)) →
              ∀ a', unchanged_from s (State (<[fresh (dom (heap s)) := a']> h) (calls s)))
      as Hins.
    { intros h Hh a'. apply unchanged_insert; [done|apply is_fresh]. }
    assert (unchanged_from s (State (heap s) (calls s))) as Hs0 by (by split).
    destruct highgui.
    + unfold bind, deref, ret. cbn [heap]. rewrite lookup_insert_eq. by apply Hins.
    + unfold bind at 1. unfold deref at 1. cbn [heap]. rewrite lookup_insert_eq.
      unfold bind at 1.
      destruct (decide (shape_last (arr_shape a) = 3%nat)) as [H3|H3].
      * unfold bind, deref, lift, store, ret, raise. cbn [heap calls].
        destruct (get_channel a 0) as [tmp|]; [|by apply Hins].
        destruct (get_channel a 2) as [c2|]; [|by apply Hins].
        destruct (set_channel a 0 c2) as [a1|]; [|by apply Hins].
        cbn [heap calls]. rewrite lookup_insert_eq.
        destruct (set_channel a1 2 tmp) as [a2|]; [|by apply Hins, Hins].
        cbn [heap calls]. rewrite lookup_insert_eq. cbn [state_of].
        by apply Hins, Hins, Hins.
      * unfold bind, deref, ret. cbn [heap]. rewrite lookup_insert_eq. by apply Hins.
  - unfold save. unfold bind at 1. destruct as_annotated_flag.
    + pose proof (show_array_new self true (f64_lit 1 2) s) as Hnew. cbn [negb] in Hnew.
      destruct (as_annotated self (f64_lit 1 2) s) as [l s1|e s1]; [|done].
      destruct Hnew as (a & -> & ->).
      unfold bind, deref, ret. cbn [heap]. rewrite lookup_insert_eq.
      apply unchanged_insert; [by split|apply is_fresh].
    + unfold ret at 1. unfold bind, deref, ret.
      destruct (heap s !! data self); apply unchanged_refl.
Qed.


End Display.


(** X7.  Without annotations, [show] in the matplotlib mode displays a copy
    of a 2-D base raster as it is, unless the raster is exactly 3 pixels wide:
    its last dimension is then taken for three channels, the channel exchange
    is tried on the 2-D array, and IndexError is raised. *)
Theorem show_unannotated_gray `{Gui} `{Numpy} self window_title alpha delay pos s base h w :
  heap s !! data self = Some base →
  arr_shape base = Shape2 h w →
  let title := match window_title with
               | Some t => if decide (t = "") then desc self else t
               | None => desc self
               end in
  let l := fresh (dom (heap s)) in
  (w = 3%nat →
     show self window_title false false alpha delay pos s
     = Raise IndexError (State (<[l := copy base]> (heap s)) (calls s)))
  ∧ (w ≠ 3%nat →
     show self window_title false false alpha delay pos s
     = Ok ([plot_imshow (copy base); plot_title title; plot_draw; plot_show], None)
          (State (<[l := copy base]> (heap s)) (calls s))).
Proof.
  intros Hbase Hsh title l.
  split; intros Hw; unfold show; fold title;
    unfold bind at 1; unfold bind at 1; unfold deref at 1; rewrite Hbase;
    unfold alloc; fold l; unfold bind at 1; unfold deref at 1; cbn [heap];
    rewrite lookup_insert_eq; unfold bind at 1;
    replace (shape_last (arr_shape (copy base))) with w
      by (unfold copy; cbn [arr_shape]; by rewrite Hsh).
  - rewrite decide_True by done. unfold get_channel, copy. cbn [arr_shape].
    rewrite Hsh. by unfold bind, lift, raise.
  - rewrite decide_False by done. unfold bind, deref, ret. cbn [heap].
    by rewrite lookup_insert_eq.
Qed.

Lemma show_unannotated_gray_witness :
  show (np := zero_cast) img_gray23 None false false (f64_lit 1 2) 0 None gray23
  = Raise IndexError
      (State (<[3%positive := copy (of_gray_rows [[5; 6; 7]; [8; 9; 10]])]> (heap gray23)) []).
Proof.
  destruct (show_unannotated_gray (H0 := zero_cast) img_gray23 None (f64_lit 1 2) 0 None gray23
              (of_gray_rows [[5; 6; 7]; [8; 9; 10]]) 2 3 eq_refl eq_refl) as [Hraise _].
  exact (Hraise eq_refl).
Defined.

(** ** Tile selection *)

Section TileSelection.
Context {Tile : Type}.
Context (size : Tile → option (nat * nat)).
Context (get_highlighted :
           list Tile → nat * nat → nat * nat → list string → string → list nat).

Lemma take_tiles_chunk (c : nat) (gen : list (tile_item Tile)) :
  ∀ tiles labels ids (n : nat), (n < c)%nat →
    take_tiles (Z.of_nat c) gen tiles labels ids (Z.of_nat n)
    = (tiles ++ ((λ it : tile_item Tile, it.1.2) <$> take (c - n) gen),
       labels ++ ((λ it : tile_item Tile, it.2) <$> take (c - n) gen),
       ids ++ ids_of (take (c - n) gen),
       Z.of_nat (n + length (take (c - n) gen)),
       drop (c - n) gen).
Proof.
  induction gen as [|[[id tile] lbl] gen IH]; intros tiles labels ids n Hn.
  - rewrite take_nil, drop_nil. unfold ids_of. simpl. rewrite !app_nil_r.
    by rewrite Nat.add_0_r.
  - cbn [take_tiles]. replace (Z.of_nat n + 1) with (Z.of_nat (S n)) by lia.
    replace (c - n)%nat with (S (c - S n)) by lia.
    case_decide as Hc.
    + replace (c - S n)%nat with 0%nat by lia. unfold ids_of. simpl.
      repeat f_equal. lia.
    + rewrite IH by lia. unfold ids_of. cbn [take drop fmap list_fmap length fst snd].
      rewrite <-!app_assoc. simpl. repeat f_equal. lia.
Qed.

Lemma mapM_lookup_in_range (ids : list string) (xs : list nat) :
  Forall (λ x, x < length ids)%nat xs →
  ∃ chosen, mapM (λ x, ids !! x) xs = Some chosen ∧ Forall (λ id, id ∈ ids) chosen.
Proof.
  induction 1 as [|x xs Hx _ (chosen & Hm & Hin)].
  - by exists [].
  - destruct (lookup_lt_is_Some_2 ids x Hx) as [id Hid].
    exists (id :: chosen). split.
    + rewrite mapM_Some. constructor; [done|]. by apply mapM_Some.
    + constructor; [|done]. by eapply list_elem_of_lookup_2.
Qed.

(** What one page does, for a chunk size of at least one. *)
Lemma process_chunk_spec (self : TileSelector Tile) (page : nat) (c : nat) :
  chunk_size self = Z.of_nat c → (1 ≤ c)%nat →
  highlights_in_range get_highlighted →
  (∀ it, head (tile_gen self) = Some it → is_Some (size it.1.2)) →
  ∃ chosen,
    process_chunk size get_highlighted self page
    = Returned {| tile_gen := drop c (tile_gen self); chunk_size := chunk_size self;
                  layout := layout self; selected := selected self ++ chosen;
                  done := done self
                          || bool_decide (0 < length (tile_gen self) < c)%nat |}
    ∧ Forall (λ id, id ∈ ids_of (take c (tile_gen self))) chosen
    ∧ (tile_gen self = [] → chosen = []).
Proof.
  intros Hcs Hc Hrange Hsize. unfold process_chunk. rewrite Hcs.
  assert (0 < c)%nat as Hc0 by lia.
  pose proof (take_tiles_chunk c (tile_gen self) [] [] [] 0 Hc0) as Ht.
  change (Z.of_nat 0) with 0 in Ht. rewrite Ht. clear Ht.
  rewrite Nat.sub_0_r. cbn [app Nat.add].
  destruct (tile_gen self) as [|it gen] eqn:Hgen.
  - exists []. rewrite take_nil, drop_nil. cbn [length Z.of_nat].
    rewrite decide_True by done.
    rewrite bool_decide_eq_false_2 by lia. by rewrite app_nil_r, orb_false_r.
  - destruct (Hsize it eq_refl) as [sz Hsz].
    destruct c as [|c']; [lia|]. cbn [take fmap list_fmap length].
    rewrite decide_False by lia. rewrite Hsz.
    assert (length (take c' gen) = c' `min` length gen)%nat as Hlen by apply length_take.
    case_decide as Hlt; cbn [chunk_size length] in Hlt;
      cbn [layout chunk_size selected tile_gen done];
      match goal with
      | |- context [mapM (λ x, ?ids !! x) ?xs] =>
          destruct (mapM_lookup_in_range ids xs) as (chosen & Hm & Hin); [apply Hrange|]
      end;
      exists chosen; rewrite Hm; (split_and!; [|exact Hin|done]); f_equal; f_equal.
    + rewrite bool_decide_eq_true_2 by (cbn [length]; lia). by rewrite orb_true_r.
    + rewrite bool_decide_eq_false_2 by (cbn [length]; lia). by rewrite orb_false_r.
Qed.

(** A page whose first tile has no [size]: AttributeError, after the tiles
    of the page have been taken from the generator and [done] has been set
    for a last page. *)
Lemma process_chunk_unsized (self : TileSelector Tile) (page : nat) (c : nat) it :
  chunk_size self = Z.of_nat c → (1 ≤ c)%nat →
  head (tile_gen self) = Some it → size it.1.2 = None →
  process_chunk size get_highlighted self page
  = Raised_AttributeError
      {| tile_gen := drop c (tile_gen self); chunk_size := chunk_size self;
         layout := layout self; selected := selected self;
         done := done self || bool_decide (length (tile_gen self) < c)%nat |}.
Proof.
  intros Hcs Hc Hhead Hsz. unfold process_chunk. rewrite Hcs.
  assert (0 < c)%nat as Hc0 by lia.
  pose proof (take_tiles_chunk c (tile_gen self) [] [] [] 0 Hc0) as Ht.
  change (Z.of_nat 0) with 0 in Ht. rewrite Ht. clear Ht.
  rewrite Nat.sub_0_r. cbn [app Nat.add].
  destruct (tile_gen self) as [|it' gen] eqn:Hgen; [done|].
  injection Hhead as ->.
  destruct c as [|c']; [lia|]. cbn [take fmap list_fmap length].
  rewrite decide_False by lia. rewrite Hsz.
  assert (length (take c' gen) = c' `min` length gen)%nat as Hlen by apply length_take.
  case_decide as Hlt; cbn [chunk_size length] in Hlt;
    cbn [layout chunk_size selected tile_gen done]; f_equal; f_equal.
  + rewrite bool_decide_eq_true_2 by (cbn [length]; lia). by rewrite orb_true_r.
  + rewrite bool_decide_eq_false_2 by (cbn [length]; lia). by rewrite orb_false_r.
Qed.

End TileSelection.

Section Paging.
Context {Tile : Type}.
Context (size : Tile → option (nat * nat)).
Context (get_highlighted :
           list Tile → nat * nat → nat * nat → list string → string → list nat).

Lemma ids_of_take_subseteq (gen : list (tile_item Tile)) n id :
  id ∈ ids_of (take n gen) → id ∈ ids_of gen.
Proof.
  unfold ids_of. intros (it & -> & Hin)%list_elem_of_fmap.
  apply list_elem_of_fmap. exists it. split; [done|]. by apply (subseteq_take n).
Qed.

Lemma ids_of_drop_subseteq (gen : list (tile_item Tile)) n id :
  id ∈ ids_of (drop n gen) → id ∈ ids_of gen.
Proof.
  unfold ids_of. intros (it & -> & Hin)%list_elem_of_fmap.
  apply list_elem_of_fmap. exists it. split; [done|]. by apply (subseteq_drop n).
Qed.

Lemma sized_head (gen : list (tile_item Tile)) it :
  sized size gen → head gen = Some it → is_Some (size it.1.2).
Proof. intros Hs Hh. destruct gen; [done|]. injection Hh as ->. by apply Forall_cons in Hs as [? _]. Qed.

Lemma sized_drop (gen : list (tile_item Tile)) n : sized size gen → sized size (drop n gen).
Proof. apply Forall_drop. Qed.

(** X8.  With a chunk size c of at least one, [process_chunk] takes the
    first c tiles of the generator, or all of them when fewer are left, and
    leaves the rest in the generator.  When the first tile of the page has
    the attribute [size], the ids it adds to the selection are ids of the
    tiles of this page, after the ids selected before; it sets [done] exactly
    when it got at least one tile but fewer than c; on an exhausted generator
    it changes nothing.  When the first tile has no [size], as a tile of the
    class [Image] has none, it raises AttributeError, with the tiles of the
    page taken and nothing selected. *)
Theorem process_chunk_page (self : TileSelector Tile) (page c : nat) :
  chunk_size self = Z.of_nat c → (1 ≤ c)%nat →
  highlights_in_range get_highlighted →
  ((∀ it, head (tile_gen self) = Some it → is_Some (size it.1.2)) →
   ∃ self' chosen,
     process_chunk size get_highlighted self page = Returned self'
     ∧ tile_gen self' = drop c (tile_gen self)
     ∧ length (tile_gen self') = (length (tile_gen self) - c)%nat
     ∧ selected self' = selected self ++ chosen
     ∧ Forall (λ id, id ∈ ids_of (take c (tile_gen self))) chosen
     ∧ done self' = done self || bool_decide (0 < length (tile_gen self) < c)%nat
     ∧ chunk_size self' = chunk_size self
     ∧ layout self' = layout self
     ∧ (tile_gen self = [] → self' = self))
  ∧ (∀ it, head (tile_gen self) = Some it → size it.1.2 = None →
     process_chunk size get_highlighted self page
     = Raised_AttributeError
         {| tile_gen := drop c (tile_gen self); chunk_size := chunk_size self;
            layout := layout self; selected := selected self;
            done := done self || bool_decide (length (tile_gen self) < c)%nat |}).
Proof.
  intros Hcs Hc Hrange. split.
  - intros Hsize.
    destruct (process_chunk_spec size get_highlighted self page c Hcs Hc Hrange Hsize)
      as (chosen & Hrun & Hin & Hnil).
    eexists _, chosen. split; [exact Hrun|]. cbn [tile_gen selected done chunk_size layout].
    split; [done|]. split; [by rewrite length_drop|]. do 5 (split; [done|]).
    intros Hgen. rewrite (Hnil Hgen), Hgen, app_nil_r, drop_nil. simpl.
    rewrite orb_false_r. destruct self. simpl in *. by subst.
  - intros it Hhead Hsz. by apply (process_chunk_unsized size get_highlighted self page c it).
Qed.

Lemma process_all_loop_done (self : TileSelector Tile) fuel page :
  done self = true →
  process_all_loop size get_highlighted fuel self page = Some (Returned self).
Proof. intros Hd. destruct fuel; simpl; by rewrite Hd. Qed.

Lemma process_all_returns (q : nat) : ∀ (self : TileSelector Tile) (page fuel c r : nat),
  chunk_size self = Z.of_nat c →
  done self = false →
  length (tile_gen self) = (q * c + r)%nat → (0 < r < c)%nat →
  highlights_in_range get_highlighted →
  sized size (tile_gen self) →
  (q < fuel)%nat →
  ∃ chosen,
    process_all_loop size get_highlighted fuel self page
    = Some (Returned {| tile_gen := []; chunk_size := chunk_size self;
                        layout := layout self; selected := selected self ++ chosen;
                        done := true |})
    ∧ Forall (λ id, id ∈ ids_of (tile_gen self)) chosen.
Proof.
  induction q as [|q IH]; intros self page fuel c r Hcs Hdone Hlen Hr Hrange Hsized Hfuel.
  - destruct fuel as [|fuel]; [lia|]. cbn [process_all_loop]. rewrite Hdone.
    destruct (process_chunk_spec size get_highlighted self page c Hcs ltac:(lia) Hrange)
      as (chosen & -> & Hin & _); [intros it; by apply sized_head|].
    rewrite process_all_loop_done by (cbn [done]; rewrite bool_decide_eq_true_2 by lia;
                                      by rewrite orb_true_r).
    exists chosen. split.
    + rewrite drop_ge by lia. rewrite bool_decide_eq_true_2 by lia.
      by rewrite orb_true_r.
    + eapply Forall_impl; [exact Hin|]. intros id. apply ids_of_take_subseteq.
  - destruct fuel as [|fuel]; [lia|]. cbn [process_all_loop]. rewrite Hdone.
    destruct (process_chunk_spec size get_highlighted self page c Hcs ltac:(lia) Hrange)
      as (chosen1 & -> & Hin1 & _); [intros it; by apply sized_head|].
    rewrite bool_decide_eq_false_2 by (cbn [Nat.mul] in Hlen; lia).
    rewrite Hdone. cbn [orb].
    edestruct (IH {| tile_gen := drop c (tile_gen self); chunk_size := chunk_size self;
                     layout := layout self; selected := selected self ++ chosen1;
                     done := false |} (page + 1)%nat fuel c r)
      as (chosen2 & -> & Hin2); [done|done| |done|done|by apply sized_drop|lia|].
    { cbn [tile_gen]. rewrite length_drop, Hlen. cbn [Nat.mul]. lia. }
    exists (chosen1 ++ chosen2). cbn [tile_gen chunk_size layout selected].
    split; [by rewrite app_assoc|]. apply Forall_app. split.
    + eapply Forall_impl; [exact Hin1|]. intros id. apply ids_of_take_subseteq.
    + eapply Forall_impl; [exact Hin2|]. intros id. apply ids_of_drop_subseteq.
Qed.

(** X9.  When the number of tiles is not a multiple of the chunk size c
    (it is q * c + r with 0 < r < c) and every tile has the attribute [size],
    [process_all] returns after q + 1 pages: the generator is exhausted,
    [done] is set, and the selection has grown by ids of tiles of the
    generator only.  When the first tile has no [size], as a tile of the class
    [Image] has none, [process_all] raises AttributeError on its first page,
    whatever the number of tiles. *)
Theorem process_all_terminates (self : TileSelector Tile) (page fuel c : nat) :
  chunk_size self = Z.of_nat c → (1 ≤ c)%nat →
  done self = false →
  highlights_in_range get_highlighted →
  (∀ q r, length (tile_gen self) = (q * c + r)%nat → (0 < r < c)%nat →
     sized size (tile_gen self) → (q < fuel)%nat →
     ∃ chosen,
       process_all_loop size get_highlighted fuel self page
       = Some (Returned {| tile_gen := []; chunk_size := chunk_size self;
                           layout := layout self; selected := selected self ++ chosen;
                           done := true |})
       ∧ Forall (λ id, id ∈ ids_of (tile_gen self)) chosen)
  ∧ (∀ it, head (tile_gen self) = Some it → size it.1.2 = None → (0 < fuel)%nat →
     process_all_loop size get_highlighted fuel self page
     = Some (Raised_AttributeError
               {| tile_gen := drop c (tile_gen self); chunk_size := chunk_size self;
                  layout := layout self; selected := selected self;
                  done := bool_decide (length (tile_gen self) < c)%nat |})).
Proof.
  intros Hcs Hc Hdone Hrange. split.
  - intros q r Hlen Hr Hsized Hfuel. by apply (process_all_returns q self page fuel c r).
  - intros it Hhead Hsz Hfuel. destruct fuel as [|fuel]; [lia|].
    cbn [process_all_loop]. rewrite Hdone.
    rewrite (process_chunk_unsized size get_highlighted self page c it) by done.
    by rewrite Hdone.
Qed.

(** A non-positive chunk size: one tile a page, and [done] is never set. *)
Lemma process_chunk_nonpositive (self : TileSelector Tile) (page : nat) :
  chunk_size self ≤ 0 →
  highlights_in_range get_highlighted →
  sized size (tile_gen self) →
  ∃ chosen,
    process_chunk size get_highlighted self page
    = Returned {| tile_gen := drop 1 (tile_gen self); chunk_size := chunk_size self;
                  layout := layout self; selected := selected self ++ chosen;
                  done := done self |}.
Proof.
  intros Hcs Hrange Hsized. unfold process_chunk.
  destruct (tile_gen self) as [|[[id tile] lbl] gen].
  - exists []. simpl. by rewrite app_nil_r.
  - apply Forall_cons in Hsized as [[sz Hsz] _]. cbn [fst snd] in Hsz.
    cbn [take_tiles app]. rewrite decide_True by lia.
    rewrite decide_False by lia. rewrite decide_False by (cbn [chunk_size]; lia).
    rewrite Hsz. cbn [layout chunk_size selected tile_gen done].
    match goal with
    | |- context [mapM (λ x, ?ids !! x) ?xs] =>
        destruct (mapM_lookup_in_range ids xs) as (chosen & Hm & Hin); [apply Hrange|]
    end.
    exists chosen. by rewrite Hm.
Qed.

Lemma never_done_step (self : TileSelector Tile) (page : nat) :
  never_done self → highlights_in_range get_highlighted →
  sized size (tile_gen self) →
  ∃ self', process_chunk size get_highlighted self page = Returned self'
           ∧ never_done self' ∧ sized size (tile_gen self').
Proof.
  intros [Hdone [Hcs|(c & q & Hcs & Hc & Hlen)]] Hrange Hsized.
  - destruct (process_chunk_nonpositive self page Hcs Hrange Hsized) as (chosen & ->).
    eexists. split; [done|]. split; [|by apply sized_drop]. split; [done|]. by left.
  - destruct (process_chunk_spec size get_highlighted self page c Hcs Hc Hrange)
      as (chosen & -> & _); [intros it; by apply sized_head|].
    eexists. split; [done|]. split; [|by apply sized_drop]. split.
    + cbn [done]. rewrite Hdone. apply bool_decide_eq_false_2.
      destruct q; cbn [Nat.mul] in Hlen; lia.
    + right. exists c, (q - 1)%nat. cbn [chunk_size tile_gen].
      split_and!; [done..|]. rewrite length_drop, Hlen.
      destruct q; cbn [Nat.mul Nat.sub]; [lia|]. rewrite Nat.sub_0_r. lia.
Qed.

(** X10.  When every tile has the attribute [size] and the number of tiles
    is a multiple of the chunk size (an empty generator included), or the
    chunk size is not positive, [process_all] never returns and never raises:
    after the last tile [process_chunk] gets no tile and returns before it can
    set [done], so the loop goes on with no fuel ever sufficing. *)
Theorem process_all_never_returns (self : TileSelector Tile) :
  done self = false →
  (chunk_size self ≤ 0
   ∨ ∃ c q : nat, chunk_size self = Z.of_nat c ∧ (1 ≤ c)%nat
                  ∧ length (tile_gen self) = (q * c)%nat) →
  highlights_in_range get_highlighted →
  sized size (tile_gen self) →
  ∀ fuel page, process_all_loop size get_highlighted fuel self page = None.
Proof.
  intros Hdone Hcs Hrange Hsized fuel.
  assert (never_done self) as Hinv by done. clear Hdone Hcs. revert self Hinv Hsized.
  induction fuel as [|fuel IH]; intros self Hinv Hsized page.
  - simpl. by rewrite (proj1 Hinv).
  - cbn [process_all_loop]. rewrite (proj1 Hinv).
    destruct (never_done_step self page Hinv Hrange Hsized) as (self' & -> & Hinv' & Hsized').
    by apply IH.
Qed.

End Paging.

Lemma first_tile_in_range {Tile} : highlights_in_range (first_tile (Tile := Tile)).
Proof.
  intros tiles lay sz [|id ids] title; simpl; [constructor|].
  apply Forall_cons. split; [lia|constructor].
Qed.

Lemma three_tiles_sized : sized (λ _ : nat, Some (1, 1)%nat) three_tiles.
Proof. repeat constructor; by eexists. Qed.

Lemma process_chunk_page_witness :
  ∃ self', process_chunk (λ _ : nat, Some (1, 1)%nat) first_tile
             (TileSelector_init three_tiles 2 (6, 8)%nat) 1 = Returned self'
           ∧ ids_of (tile_gen self') = ["2"] ∧ selected self' = ["0"].
Proof.
  destruct (process_chunk_page (λ _ : nat, Some (1, 1)%nat) first_tile
              (TileSelector_init three_tiles 2 (6, 8)%nat) 1 2)
    as [Hsized _]; [reflexivity|lia|apply first_tile_in_range|].
  destruct Hsized as (self' & chosen & Hrun & Hgen & _); [intros it _; by eexists|].
  exists self'. split; [exact Hrun|]. rewrite Hgen.
  injection Hrun as <-. split; reflexivity.
Defined.

Lemma process_all_terminates_witness :
  ∃ chosen,
    process_all (λ _ : nat, Some (1, 1)%nat) first_tile 2
      (TileSelector_init three_tiles 2 (6, 8)%nat)
    = Some (Returned {| tile_gen := []; chunk_size := 2; layout := (6, 8)%nat;
                        selected := [] ++ chosen; done := true |}).
Proof.
  destruct (process_all_terminates (λ _ : nat, Some (1, 1)%nat) first_tile
              (TileSelector_init three_tiles 2 (6, 8)%nat) 1 2 2)
    as [Hret _]; [reflexivity|lia|reflexivity|apply first_tile_in_range|].
  destruct (Hret 1%nat 1%nat) as (chosen & Hrun & _);
    [reflexivity|lia|apply three_tiles_sized|lia|].
  by exists chosen.
Defined.

(** The selector on the tiles of the repository's own generators, which are
    [Image]s: the first page raises AttributeError. *)
Example process_all_on_images img :
  process_all Image_size first_tile 5
    (TileSelector_init [("0", img, None); ("1", img, None)] 48 (6, 8)%nat)
  = Some (Raised_AttributeError
            {| tile_gen := []; chunk_size := 48; layout := (6, 8)%nat;
               selected := []; done := true |}).
Proof. reflexivity. Qed.

Lemma process_all_never_returns_witness :
  process_all (λ _ : nat, Some (1, 1)%nat) first_tile 1000
    (TileSelector_init three_tiles 3 (6, 8)%nat) = None.
Proof.
  apply (process_all_never_returns (λ _ : nat, Some (1, 1)%nat) first_tile
           (TileSelector_init three_tiles 3 (6, 8)%nat) eq_refl).
  - right. exists 3%nat, 1%nat. split_and!; [reflexivity|lia|reflexivity].
  - apply first_tile_in_range.
  - apply three_tiles_sized.
Defined.

(** ** Tile generators *)

Section Generators.
Context `{Cv2}.

Lemma init_from_path p args d s base :
  cv2_imread p args = Some base →
  ∃ self s', __init__ (from_path p) args d s = Ok self s'.
Proof.
  intros Hread. unfold __init__, bind, lift, alloc, deref, ret. rewrite Hread.
  cbn [heap calls]. rewrite lookup_insert_eq.
  destruct (shape_0_2 (arr_shape base)); eauto.
Qed.

Lemma init_unreadable p args d s :
  cv2_imread p args = None →
  __init__ (from_path p) args d s = Raise AttributeError s.
Proof. intros Hread. unfold __init__, bind, lift, raise. by rewrite Hread. Qed.

(** The generator on a prefix of files that can all be read. *)
Lemma collect_prefix labels tl (pre : list string) : ∀ idx s,
  Forall (λ filen, is_Some (cv2_imread filen None)) pre →
  (∀ k, (k < length pre)%nat → is_Some (label_at labels (idx + k))) →
  ∃ items s',
    (∀ fuel, collect (length pre + fuel) (gen_running idx (pre ++ tl) labels) s
             = (λ r : list yielded * option gen_exn * state,
                  (items ++ r.1.1, r.1.2, r.2))
                 <$> collect fuel (gen_running (idx + length pre) tl labels) s')
    ∧ length items = length pre
    ∧ (∀ l, l ∈ dom (heap s) → heap s' !! l = heap s !! l)
    ∧ calls s' = calls s
    ∧ ∀ k item, items !! k = Some item →
        item.1.1 = pretty (idx + k)%nat
        ∧ label_at labels (idx + k) = Some item.2
        ∧ ∃ filen base,
            pre !! k = Some filen
            ∧ cv2_imread filen None = Some base
            ∧ heap s' !! data item.1.2 = Some base
            ∧ heap s' !! annotation_data item.1.2
              = Some (np_zeros (height item.1.2) (width item.1.2) 3).
Proof.
  induction pre as [|filen pre IH]; intros idx s Hread Hlbl.
  - exists [], s. split_and!; [|done..|by intros k item Hk].
    intros fuel. cbn [length app Nat.add]. rewrite Nat.add_0_r.
    by destruct (collect fuel _ s) as [[[its e] s']|].
  - apply Forall_cons in Hread as [[base Hbase] Hread].
    destruct (Hlbl 0%nat) as [lbl Hl]; [simpl; lia|]. rewrite Nat.add_0_r in Hl.
    destruct (init_from_path filen None "Pyvision Image" s base Hbase) as (tile & s1 & Hinit).
    destruct (init_Ok _ _ _ _ _ _ Hinit)
      as (base' & Hd & Ha & _ & Hframe & _ & _ & Hcalls & _ & Hbase').
    assert (base' = base) as -> by congruence.
    destruct (IH (S idx) s1 Hread) as (items & s' & Hcollect & Hlen & Hframe' & Hcalls' & Hitems).
    { intros k Hk. replace (S idx + k)%nat with (idx + S k)%nat by lia.
      apply Hlbl. simpl. lia. }
    exists ((pretty idx, tile, lbl) :: items), s'. split_and!.
    + intros fuel. cbn [length app Nat.add collect next next_running].
      rewrite Hl, Hinit, Hcollect.
      replace (idx + S (length pre))%nat with (S idx + length pre)%nat by lia.
      by destruct (collect fuel _ s') as [[[its e] s'']|].
    + simpl. by rewrite Hlen.
    + intros l Hl0. rewrite Hframe'; [by apply Hframe|].
      apply elem_of_dom. rewrite Hframe by done. by apply elem_of_dom.
    + congruence.
    + intros [|k] item Hk.
      * injection Hk as <-. cbn [fst snd]. rewrite Nat.add_0_r.
        split_and!; [done..|]. exists filen, base. split_and!; [done..| |].
        -- rewrite Hframe'; [done|]. by apply elem_of_dom_2 in Hd.
        -- rewrite Hframe'; [done|]. by apply elem_of_dom_2 in Ha.
      * destruct (Hitems k item Hk) as (Hid & Hlb & f & b & Hf & Hb & Hdata & Hann).
        replace (idx + S k)%nat with (S idx + k)%nat by lia.
        split_and!; [done..|]. by exists f, b.
Qed.

Lemma labels_in_range (filenames : list string) labels :
  match labels with Some ls => length filenames = length ls | None => True end →
  ∀ k, (k < length filenames)%nat → is_Some (label_at labels k).
Proof.
  intros Hlen k Hk. destruct labels as [ls|]; simpl; [|eauto].
  destruct (lookup_lt_is_Some_2 ls k) as [lbl ->]; [lia|]. simpl. eauto.
Qed.

Lemma collect_created fuel filenames labels s :
  match labels with Some ls => length filenames = length ls | None => True end →
  collect fuel (gen_created filenames labels) s
  = collect fuel (gen_running 0 filenames labels) s.
Proof.
  intros Hlen. destruct fuel as [|fuel]; [done|]. cbn [collect next].
  destruct labels as [ls|]; [|done]. by rewrite bool_decide_eq_true_2.
Qed.

(** X11.  When the labels, if given, are as many as the file names, and every
    file can be read, the generator of [tiles_from_files] yields one item for
    each file name, in order, and then stops.  The k-th item has the id
    str(k), the k-th label (None without labels) and an image that holds what
    was read from the k-th file under a zero overlay.  Different items have
    different ids, and no array that existed before is changed. *)
Theorem tiles_from_files_yields filenames labels s fuel :
  match labels with Some ls => length filenames = length ls | None => True end →
  Forall (λ filen, is_Some (cv2_imread filen None)) filenames →
  (length filenames < fuel)%nat →
  ∃ items s',
    collect fuel (tiles_from_files filenames labels) s = Some (items, None, s')
    ∧ length items = length filenames
    ∧ (∀ k item, items !! k = Some item → tile_of filenames labels s' k item)
    ∧ (∀ k1 k2 item1 item2, items !! k1 = Some item1 → items !! k2 = Some item2 →
         item1.1.1 = item2.1.1 → k1 = k2)
    ∧ (∀ l, l ∈ dom (heap s) → heap s' !! l = heap s !! l)
    ∧ calls s' = calls s.
Proof.
  intros Hlen Hread Hfuel.
  destruct (collect_prefix labels [] filenames 0 s Hread)
    as (items & s' & Hcollect & Hl & Hframe & Hcalls & Hitems).
  { intros k Hk. by apply (labels_in_range filenames). }
  exists items, s'. split_and!; [|done| | |done|done].
  - unfold tiles_from_files. rewrite collect_created by done.
    replace fuel with (length filenames + S (fuel - length filenames - 1))%nat by lia.
    specialize (Hcollect (S (fuel - length filenames - 1))).
    rewrite app_nil_r in Hcollect. rewrite Hcollect. simpl. by rewrite app_nil_r.
  - intros k item Hk. destruct (Hitems k item Hk) as (Hid & Hlb & Hfile). by split_and!.
  - intros k1 k2 item1 item2 H1 H2 Heq.
    destruct (Hitems k1 item1 H1) as (Hid1 & _).
    destruct (Hitems k2 item2 H2) as (Hid2 & _).
    rewrite Hid1, Hid2 in Heq. by apply (inj pretty) in Heq.
Qed.

(** X12.  The failures of [tiles_from_files].  Labels that are not as many
    as the file names raise AssertionError, not when the generator is made
    but at its first item, before any file is read.  A file that cannot be
    read raises AttributeError when its turn comes: the items of the files
    before it have been yielded, and the files after it are never read. *)
Theorem tiles_from_files_fails filenames labels s fuel :
  (∀ ls, labels = Some ls → length filenames ≠ length ls → (0 < fuel)%nat →
     collect fuel (tiles_from_files filenames labels) s = Some ([], Some AssertionError, s))
  ∧ (∀ pre bad post,
       filenames = pre ++ bad :: post →
       match labels with Some ls => length filenames = length ls | None => True end →
       Forall (λ filen, is_Some (cv2_imread filen None)) pre →
       cv2_imread bad None = None →
       (length pre < fuel)%nat →
       ∃ items s',
         collect fuel (tiles_from_files filenames labels) s
         = Some (items, Some (Loading AttributeError), s')
         ∧ length items = length pre
         ∧ (∀ k item, items !! k = Some item → tile_of filenames labels s' k item)
         ∧ (∀ l, l ∈ dom (heap s) → heap s' !! l = heap s !! l)).
Proof.
  split.
  - intros ls -> Hne Hfuel. destruct fuel as [|fuel]; [lia|].
    cbn [collect tiles_from_files next]. by rewrite bool_decide_eq_false_2.
  - intros pre bad post -> Hlen Hread Hbad Hfuel.
    destruct (collect_prefix labels (bad :: post) pre 0 s Hread)
      as (items & s' & Hcollect & Hl & Hframe & Hcalls & Hitems).
    { intros k Hk. apply (labels_in_range (pre ++ bad :: post)); [done|].
      rewrite length_app. simpl. lia. }
    exists items, s'. split_and!; [|done| |done].
    + unfold tiles_from_files. rewrite collect_created by done.
      replace fuel with (length pre + S (fuel - length pre - 1))%nat by lia.
      rewrite Hcollect. cbn [collect next next_running Nat.add].
      destruct (labels_in_range (pre ++ bad :: post) labels Hlen (length pre))
        as [lbl ->]; [rewrite length_app; simpl; lia|].
      rewrite init_unreadable by done. simpl. by rewrite app_nil_r.
    + intros k item Hk.
      destruct (Hitems k item Hk) as (Hid & Hlb & f & b & Hf & Hb & Hd & Ha).
      split_and!; [done..|]. exists f, b. split_and!; [|done..].
      by apply lookup_app_l_Some.
Qed.

End Generators.

Lemma tiles_from_files_yields_witness :
  ∃ items s',
    collect (H := raster_cv2 two_files) 3
      (tiles_from_files ["a.png"; "b.png"] (Some ["cat"; "dog"])) (State ∅ [])
    = Some (items, None, s')
    ∧ length items = 2%nat.
Proof.
  destruct (tiles_from_files_yields (H := raster_cv2 two_files)
              ["a.png"; "b.png"] (Some ["cat"; "dog"]) (State ∅ []) 3)
    as (items & s' & Hrun & Hlen & _).
  - reflexivity.
  - repeat constructor; by eexists.
  - simpl. lia.
  - by exists items, s'.
Defined.

Lemma tiles_from_files_fails_witness :
  ∃ items s',
    collect (H := raster_cv2 two_files) 2
      (tiles_from_files ["a.png"; "zz.png"; "b.png"] None) (State ∅ [])
    = Some (items, Some (Loading AttributeError), s')
    ∧ length items = 1%nat.
Proof.
  destruct (tiles_from_files_fails (H := raster_cv2 two_files)
              ["a.png"; "zz.png"; "b.png"] None (State ∅ []) 2) as [_ Hbad].
  destruct (Hbad ["a.png"] "zz.png" ["b.png"]) as (items & s' & Hrun & Hlen & _).
  - reflexivity.
  - done.
  - repeat constructor; by eexists.
  - reflexivity.
  - simpl. lia.
  - by exists items, s'.
Defined.

Example tiles_from_files_ids :
  (λ r : list yielded * option gen_exn * state,
     ((λ item : yielded, (item.1.1, item.2)) <$> r.1.1, r.1.2))
    <$> collect (H := raster_cv2 two_files) 3
          (tiles_from_files ["a.png"; "b.png"] (Some ["cat"; "dog"])) (State ∅ [])
  = Some ([("0", Some "cat"); ("1", Some "dog")], None).
Proof. reflexivity. Qed.

(** ** The default opacity *)

(** X13.  At the default opacity 0.5, which is also the one [save] uses, the
    composite of an 8-bit image is an 8-bit raster in which every element
    with a non-zero overlay element is the mean of the overlay and the base
    element, rounded down; every element lies between its base element and
    its overlay element. *)
Theorem as_annotated_default_opacity `{Numpy} s self base ann :
  image_in s self base ann →
  convertible (height self) (width self) (nchannels self) →
  ∃ l out,
    as_annotated self (f64_lit 1 2) s
    = Ok l (State (<[l := out]> (heap s)) (calls s))
    ∧ uint8_array out
    ∧ ∀ i j k, (i < height self)%nat → (j < width self)%nat → (k < 3)%nat →
        item out i j k
        = (if decide (item ann i j k = 0) then bgr (nchannels self) base i j k
           else (item ann i j k + bgr (nchannels self) base i j k) / 2)
        ∧ Z.min (item ann i j k) (bgr (nchannels self) base i j k)
          ≤ item out i j k
          ≤ Z.max (item ann i j k) (bgr (nchannels self) base i j k).
Proof.
  intros [Hbase Hann Hok Hub Hua] Hconv.
  destruct (as_annotated_spec s self (f64_lit 1 2) base ann)
    as (out & Hrun & Hsh & Hout); [done..|].
  assert (∀ i j k, (i < height self)%nat → (j < width self)%nat → (k < 3)%nat →
            0 ≤ item ann i j k < 256) as Hann8.
  { intros i j k Hi Hj Hk. apply Hua. destruct Hok as [-> _]. by apply in_bounds_Shape3. }
  exists (fresh (dom (heap s))), out. split_and!; [done| |].
  - intros i j k Hb. rewrite Hsh in Hb. apply in_bounds_Shape3 in Hb as (Hi & Hj & Hk).
    rewrite Hout. case_decide; [apply astype_uint8_range|by eapply bgr_uint8; eauto].
  - intros i j k Hi Hj Hk.
    assert (k < out_channels (nchannels self))%nat as Hk'.
    { unfold out_channels. destruct Hok as [_ [[_ ->]|[_ [->|?]]]]; case_decide; lia. }
    pose proof (bgr_uint8 _ _ _ _ _ i j k Hok Hub Hi Hj Hk') as Hb8.
    specialize (Hann8 i j k Hi Hj Hk).
    assert (item out i j k
            = if decide (item ann i j k = 0) then bgr (nchannels self) base i j k
              else (item ann i j k + bgr (nchannels self) base i j k) / 2) as ->.
    { rewrite Hout. destruct (decide (item ann i j k = 0)) as [Hz|Hz].
      - apply decide_False. tauto.
      - rewrite decide_True by done.
        apply astype_uint8_trunc; [by apply blend_half|].
        split; [apply Z.div_pos; lia|apply Z.div_lt_upper_bound; lia]. }
    split; [done|]. case_decide as Hz.
    + rewrite Hz. lia.
    + pose proof (Z.mul_div_le (item ann i j k + bgr (nchannels self) base i j k) 2).
      pose proof (Z.mul_succ_div_gt (item ann i j k + bgr (nchannels self) base i j k) 2).
      lia.
Qed.

Lemma as_annotated_default_opacity_witness :
  ∃ l out,
    as_annotated (np := zero_cast) img1 (f64_lit 1 2) (one_pixel [4; 5; 6] [0; 2; 9])
    = Ok l (State (<[l := out]> (heap (one_pixel [4; 5; 6] [0; 2; 9]))) [])
    ∧ item out 0 0 0 = 4 ∧ item out 0 0 1 = 3 ∧ item out 0 0 2 = 7.
Proof.
  destruct (as_annotated_default_opacity (H := zero_cast) (one_pixel [4; 5; 6] [0; 2; 9]) img1
              (of_rows [[[4; 5; 6]]]) (of_rows [[[0; 2; 9]]]))
    as (l & out & Hrun & _ & Hout).
  - apply one_pixel_image_in; reflexivity.
  - by apply convertible_colour.
  - exists l, out. split; [exact Hrun|].
    assert (0 < 1)%nat as H01 by lia.
    assert (0 < 3)%nat as H03 by lia. assert (1 < 3)%nat as H13 by lia.
    assert (2 < 3)%nat as H23 by lia.
    destruct (Hout 0%nat 0%nat 0%nat H01 H01 H03) as [-> _].
    destruct (Hout 0%nat 0%nat 1%nat H01 H01 H13) as [-> _].
    destruct (Hout 0%nat 0%nat 2%nat H01 H01 H23) as [-> _].
    split_and!; reflexivity.
Defined.

(** ** Colours, twice *)

(** X14.  [_fix_color_tuple] reverses the order of the components, so on a
    colour without a zero component applying it twice gives the colour back;
    on any colour, applying it twice gives the colour with its zeros replaced
    by ones.  A zero and a one in a component cannot be told apart afterwards:
    black is drawn as (1,1,1). *)
Theorem fix_color_tuple_twice (c : color_t) :
  _fix_color_tuple (_fix_color_tuple c)
  = (coerce_zero c.1.1, coerce_zero c.1.2, coerce_zero c.2)
  ∧ (no_zero c → _fix_color_tuple (_fix_color_tuple c) = c)
  ∧ _fix_color_tuple (coerce_zero c.1.1, coerce_zero c.1.2, coerce_zero c.2)
    = _fix_color_tuple c
  ∧ _fix_color_tuple (0, 0, 0) = _fix_color_tuple (1, 1, 1).
Proof.
  destruct c as [[r g] b]. cbn [fst snd]. unfold no_zero, _fix_color_tuple, coerce_zero.
  cbn [fst snd]. split_and!; [| |  |done].
  - repeat case_decide; congruence.
  - intros (Hr & Hg & Hb). repeat case_decide; congruence.
  - repeat case_decide; congruence.
Qed.

Lemma fix_color_tuple_twice_witness :
  _fix_color_tuple (_fix_color_tuple (255, 128, 1)) = (255, 128, 1).
Proof.
  destruct (fix_color_tuple_twice (255, 128, 1)) as (_ & Hid & _).
  apply Hid. unfold no_zero. simpl. lia.
Defined.
